(** * The approved shell-command pipeline of [ai/dev_agent.py] and [ai/qa_agent.py]

    Both scripts define an approval gate [require_approval] and a
    [ShellExecutor] whose [__call__] runs a batch of shell commands one after
    the other.  The code talks to its host all the time (environment,
    terminal, child processes), so it is embedded in a state-and-error monad
    over an explicit [World]: what the host will answer is data of the world,
    what the code did is recorded in its [trace]. *)

From Stdlib Require Import String Ascii List ZArith QArith Bool Arith Lia.
Import ListNotations.

Close Scope Q_scope.
Local Open Scope string_scope.
Local Open Scope list_scope.
Local Open Scope nat_scope.

(** ** Python [str] methods used by the gate

    A [str] is modelled as a [string] with one [ascii] per character, that is
    code points below 256.  [isspace] and [lower_char] are CPython's tables on
    that range. *)

Module PyStr.

(** [str.isspace] on one character: TAB..CR, FS..US, space, NEL, NBSP. *)
Definition isspace (c : ascii) : bool :=
  let n := nat_of_ascii c in
  ((9 <=? n) && (n <=? 13)) || ((28 <=? n) && (n <=? 32))
  || (n =? 133) || (n =? 160).

(** [str.lower] on one character: A..Z and the Latin-1 capitals but the
    multiplication sign move up by 32. *)
Definition lower_char (c : ascii) : ascii :=
  let n := nat_of_ascii c in
  if ((65 <=? n) && (n <=? 90))
     || ((192 <=? n) && (n <=? 222) && negb (n =? 215))
  then ascii_of_nat (n + 32) else c.

Fixpoint lower (s : string) : string :=
  match s with
  | EmptyString => EmptyString
  | String c r => String (lower_char c) (lower r)
  end.

Fixpoint lstrip (s : string) : string :=
  match s with
  | EmptyString => EmptyString
  | String c r => if isspace c then lstrip r else s
  end.

Fixpoint rstrip (s : string) : string :=
  match s with
  | EmptyString => EmptyString
  | String c r =>
      match rstrip r with
      | EmptyString => if isspace c then EmptyString else String c EmptyString
      | r' => String c r'
      end
  end.

(** [str.strip()]: the left end is trimmed first, then the right end. *)
Definition strip (s : string) : string := rstrip (lstrip s).

(** ["\n"] *)
Definition nl : string := String (ascii_of_nat 10) EmptyString.

(** [sep.join(parts)] *)
Fixpoint join (sep : string) (parts : list string) : string :=
  match parts with
  | [] => EmptyString
  | [p] => p
  | p :: ps => (p ++ sep ++ join sep ps)%string
  end.

End PyStr.

(** ** The data shapes imported from the [agents] package

    Only the fields the two scripts read or fill are kept. *)

Module Agents.

Inductive outcome_type := exit | timeout.

Record ShellCallOutcome := {
  type : outcome_type;
  exit_code : option Z
}.

Record ShellCommandOutput := {
  command : string;
  stdout : string;
  stderr : string;
  outcome : ShellCallOutcome
}.

Record ShellResult := {
  output : list ShellCommandOutput;
  provider_data : list (string * string)
}.

Record ShellActionRequest := {
  commands : list string;
  timeout_ms : option Z
}.

Record ShellCallData := { action : ShellActionRequest }.

Record ShellCommandRequest := { data : ShellCallData }.

End Agents.
Import Agents.

(** ** The host

    The host described first is an obliging one: a command line is one the
    operating system takes, the bound of a wait fits a float, a child whose
    wait ran out is still there to be killed, the drain after a kill ends,
    and no child reads the operator's terminal.  The faults a host can add
    are the subject of the last part of the file ([Faults], [Full]), where
    the first part is shown to be the obliging case. *)

(** What a child process hands over once it has ended: the two captured
    streams and the value of [proc.returncode]. *)
Record Completed := {
  stdout_bytes : list Byte.byte;
  stderr_bytes : list Byte.byte;
  status : option Z
}.

(** What the operating system does with one [create_subprocess_shell]:
    either the call fails, or a child runs.  [lifetime] is the number of
    seconds after which the child exits by itself ([None]: it never does);
    [at_exit] is what it leaves when it exits by itself, [at_kill] what it
    leaves when it is killed. *)
Inductive Child :=
| SpawnFails
| Runs (lifetime : option Q) (at_exit at_kill : Completed).

(** The process object returned by [create_subprocess_shell]. *)
Record Process := {
  pid : nat;
  p_lifetime : option Q;
  p_at_exit : Completed;
  p_at_kill : Completed
}.

Inductive event :=
| Print (text : string)
| Input (prompt : string) (line : option string)
| Spawn (p : nat) (command cwd : string) (env : list (string * string))
| Wait (p : nat) (bound : option Q)
| Kill (p : nat)
| Communicate (p : nat).

Record World := {
  environ : list (string * string);      (* os.environ *)
  stdin : list string;                   (* the lines the operator will type *)
  children : nat -> Child;               (* fate of the k-th process creation *)
  utf8_ignore : list Byte.byte -> string;(* bytes.decode("utf-8", errors="ignore") *)
  nspawn : nat;                          (* process creations so far *)
  killed : nat -> bool;
  returncode : nat -> option Z;          (* proc.returncode, by pid *)
  trace : list event                     (* what was done, oldest first *)
}.

Inductive exn :=
| RuntimeError (msg : string)
| EOFError
| OSError
| TimeoutError
| ValueError
| OverflowError
| ProcessLookupError.

(** How a computation ends: with a value, with an exception, or never
    ([Hang]: an unbounded wait on a child that does not exit). *)
Inductive result (A : Type) :=
| Return (a : A)
| Raise (e : exn)
| Hang.
Arguments Return {A} a.
Arguments Raise {A} e.
Arguments Hang {A}.

Definition io (A : Type) : Type := World -> result A * World.

Definition ret {A} (a : A) : io A := fun w => (Return a, w).

Definition raise {A} (e : exn) : io A := fun w => (Raise e, w).

Definition bind {A B} (m : io A) (k : A -> io B) : io B :=
  fun w =>
    match m w with
    | (Return a, w') => k a w'
    | (Raise e, w') => (Raise e, w')
    | (Hang, w') => (Hang, w')
    end.

Notation "x <- m ;; k" := (bind m (fun x => k))
  (at level 61, m at next level, right associativity).
Notation "' pat <- m ;; k" := (bind m (fun x => match x with pat => k end))
  (at level 61, pat pattern, m at next level, right associativity).
Notation "m ;;; k" := (bind m (fun _ => k))
  (at level 61, right associativity).

(** [try: body except asyncio.TimeoutError: handler] *)
Definition try_except_TimeoutError {A} (body handler : io A) : io A :=
  fun w =>
    match body w with
    | (Raise TimeoutError, w') => handler w'
    | r => r
    end.

(** [for x in xs: body(x)], for a body without [break]. *)
Fixpoint for_each {A} (xs : list A) (body : A -> io unit) : io unit :=
  match xs with
  | [] => ret tt
  | x :: rest => body x ;;; for_each rest body
  end.

Definition upd {V} (f : nat -> V) (k : nat) (v : V) : nat -> V :=
  fun i => if Nat.eqb i k then v else f i.

Definition log (e : event) (w : World) : World :=
  {| environ := environ w; stdin := stdin w; children := children w;
     utf8_ignore := utf8_ignore w; nspawn := nspawn w; killed := killed w;
     returncode := returncode w; trace := trace w ++ [e] |}.

Definition set_stdin (l : list string) (w : World) : World :=
  {| environ := environ w; stdin := l; children := children w;
     utf8_ignore := utf8_ignore w; nspawn := nspawn w; killed := killed w;
     returncode := returncode w; trace := trace w |}.

Definition set_nspawn (n : nat) (w : World) : World :=
  {| environ := environ w; stdin := stdin w; children := children w;
     utf8_ignore := utf8_ignore w; nspawn := n; killed := killed w;
     returncode := returncode w; trace := trace w |}.

Definition set_killed (p : nat) (w : World) : World :=
  {| environ := environ w; stdin := stdin w; children := children w;
     utf8_ignore := utf8_ignore w; nspawn := nspawn w;
     killed := upd (killed w) p true;
     returncode := returncode w; trace := trace w |}.

Definition set_returncode (p : nat) (rc : option Z) (w : World) : World :=
  {| environ := environ w; stdin := stdin w; children := children w;
     utf8_ignore := utf8_ignore w; nspawn := nspawn w; killed := killed w;
     returncode := upd (returncode w) p rc; trace := trace w |}.

(** A process object just created: it runs, and has no return code yet. *)
Definition fresh (p : nat) (w : World) : World :=
  {| environ := environ w; stdin := stdin w; children := children w;
     utf8_ignore := utf8_ignore w; nspawn := nspawn w;
     killed := upd (killed w) p false;
     returncode := upd (returncode w) p None; trace := trace w |}.

(** [os.environ.get(name)] *)
Fixpoint lookup (name : string) (env : list (string * string)) : option string :=
  match env with
  | [] => None
  | (k, v) :: rest => if String.eqb k name then Some v else lookup name rest
  end.

Definition os_environ_get (name : string) : io (option string) :=
  fun w => (Return (lookup name (environ w)), w).

Definition os_environ_copy : io (list (string * string)) :=
  fun w => (Return (environ w), w).

(** [print(a, b, ...)]: the arguments separated by one space, then a newline. *)
Definition print (args : list string) : io unit :=
  fun w => (Return tt, log (Print (PyStr.join " " args ++ PyStr.nl)%string) w).

(** [input(prompt)]: writes the prompt, reads one line without its newline;
    [EOFError] when no line is left. *)
Definition input (prompt : string) : io string :=
  fun w =>
    match stdin w with
    | [] => (Raise EOFError, log (Input prompt None) w)
    | line :: rest => (Return line, log (Input prompt (Some line)) (set_stdin rest w))
    end.

(** [asyncio.create_subprocess_shell(command, cwd=..., env=..., ...)]: the
    operating system may refuse (a missing working directory, no resources),
    which Python reports as an [OSError]. *)
Definition create_subprocess_shell (command cwd : string)
    (env : list (string * string)) : io Process :=
  fun w =>
    let k := nspawn w in
    match children w k with
    | SpawnFails => (Raise OSError, set_nspawn (S k) w)
    | Runs d fin kil =>
        (Return {| pid := k; p_lifetime := d; p_at_exit := fin; p_at_kill := kil |},
         log (Spawn k command cwd env) (fresh k (set_nspawn (S k) w)))
    end.

Definition collect (proc : Process) (c : Completed) : io (list Byte.byte * list Byte.byte) :=
  fun w => (Return (stdout_bytes c, stderr_bytes c),
            set_returncode (pid proc) (status c) w).

(** [proc.communicate()] awaited for at most [bound] seconds ([None]: for
    ever).  A killed child has ended; a live one ends after its lifetime, and
    a lifetime equal to the bound still counts as in time.  A bound below
    zero (a negative [timeout_ms]) is never met, as in [asyncio.wait_for]. *)
Definition communicate_within (proc : Process) (bound : option Q)
    : io (list Byte.byte * list Byte.byte) :=
  fun w =>
    if killed w (pid proc) then collect proc (p_at_kill proc) w
    else match p_lifetime proc, bound with
         | Some d, Some q =>
             if Qle_bool d q then collect proc (p_at_exit proc) w
             else (Raise TimeoutError, w)
         | Some d, None => collect proc (p_at_exit proc) w
         | None, Some q => (Raise TimeoutError, w)
         | None, None => (Hang, w)
         end.

(** [asyncio.wait_for(proc.communicate(), timeout=timeout)] *)
Definition wait_for_communicate (proc : Process) (timeout : option Q)
    : io (list Byte.byte * list Byte.byte) :=
  fun w => communicate_within proc timeout (log (Wait (pid proc) timeout) w).

(** [proc.communicate()] *)
Definition communicate (proc : Process) : io (list Byte.byte * list Byte.byte) :=
  fun w => communicate_within proc None (log (Communicate (pid proc)) w).

(** [proc.kill()], on a child that is still running (its wait has just
    timed out). *)
Definition kill (proc : Process) : io unit :=
  fun w => (Return tt, log (Kill (pid proc)) (set_killed (pid proc) w)).

(** [getattr(proc, "returncode", None)] *)
Definition getattr_returncode (proc : Process) : io (option Z) :=
  fun w => (Return (returncode w (pid proc)), w).

(** [b.decode("utf-8", errors="ignore")] *)
Definition decode_utf8_ignore (b : list Byte.byte) : io string :=
  fun w => (Return (utf8_ignore w b), w).

(** [(timeout_ms or 0) / 1000 or None], the quotient kept as an exact
    rational number of seconds (Python holds the float nearest to it, which
    is zero exactly when [timeout_ms] is). *)
Definition timeout_of (timeout_ms : option Z) : option Q :=
  let ms := match timeout_ms with
            | Some n => if Z.eqb n 0 then 0%Z else n
            | None => 0%Z
            end in
  let secs := (ms # 1000)%Q in
  if Qeq_bool secs 0 then None else Some secs.

(** [ShellExecutor]: one attribute, the working directory as [str(self.cwd)]. *)
Record ShellExecutor := { cwd : string }.

(** ** ai/dev_agent.py *)

Module DevAgent.

Definition AUTO_APPROVE_ENV : string := "SHELL_AUTO_APPROVE".

Definition require_approval (commands : list string) : io unit :=
  flag <- os_environ_get AUTO_APPROVE_ENV ;;
  if match flag with Some v => String.eqb v "1" | None => false end
  then ret tt
  else
    print [(PyStr.nl ++ "Shell command approval required:")%string] ;;;
    for_each commands (fun c => print ["  "; c]) ;;;
    line <- input "Proceed? [y/N] " ;;
    let resp := PyStr.lower (PyStr.strip line) in
    if negb (String.eqb resp "y" || String.eqb resp "yes")
    then raise (RuntimeError "Shell command execution rejected by user.")
    else ret tt.

(** The [for command in action.commands] loop of [__call__]; [outputs] is
    the list built so far. *)
Fixpoint run_commands (self : ShellExecutor) (action : ShellActionRequest)
    (todo : list string) (outputs : list ShellCommandOutput)
    : io (list ShellCommandOutput) :=
  match todo with
  | [] => ret outputs
  | command :: rest =>
      env <- os_environ_copy ;;
      proc <- create_subprocess_shell command (cwd self) env ;;
      '(stdout_bytes, stderr_bytes, timed_out) <-
        try_except_TimeoutError
          (let timeout := timeout_of (timeout_ms action) in
           '(o, e) <- wait_for_communicate proc timeout ;;
           ret (o, e, false))
          (kill proc ;;;
           '(o, e) <- communicate proc ;;
           ret (o, e, true)) ;;
      stdout <- decode_utf8_ignore stdout_bytes ;;
      stderr <- decode_utf8_ignore stderr_bytes ;;
      rc <- getattr_returncode proc ;;
      let outcome := {| type := if timed_out : bool then timeout else exit;
                        exit_code := rc |} in
      let outputs := outputs ++ [ {| command := command; stdout := stdout;
                                     stderr := stderr; outcome := outcome |} ] in
      if timed_out : bool then ret outputs
      else run_commands self action rest outputs
  end.

(** [ShellExecutor.__call__] *)
Definition ShellExecutor_call (self : ShellExecutor)
    (request : ShellCommandRequest) : io ShellResult :=
  let action := action (data request) in
  require_approval (commands action) ;;;
  outputs <- run_commands self action (commands action) [] ;;
  ret {| output := outputs;
         provider_data := [("working_directory", cwd self)] |}.

End DevAgent.

(** ** ai/qa_agent.py *)

Module QaAgent.

Definition require_approval (commands : list string) : io unit :=
  flag <- os_environ_get "SHELL_AUTO_APPROVE" ;;
  if match flag with Some v => String.eqb v "1" | None => false end
  then ret tt
  else
    print [(PyStr.nl ++ "[QA] Shell command approval required:")%string] ;;;
    for_each commands (fun c => print ["   "; c]) ;;;
    line <- input "Proceed? [y/N] " ;;
    let resp := PyStr.lower (PyStr.strip line) in
    if negb (String.eqb resp "y" || String.eqb resp "yes")
    then raise (RuntimeError "Shell command execution rejected by user.")
    else ret tt.

Fixpoint run_commands (self : ShellExecutor) (action : ShellActionRequest)
    (todo : list string) (outputs : list ShellCommandOutput)
    : io (list ShellCommandOutput) :=
  match todo with
  | [] => ret outputs
  | command :: rest =>
      env <- os_environ_copy ;;
      proc <- create_subprocess_shell command (cwd self) env ;;
      '(stdout_bytes, stderr_bytes, timed_out) <-
        try_except_TimeoutError
          (let timeout := timeout_of (timeout_ms action) in
           '(o, e) <- wait_for_communicate proc timeout ;;
           ret (o, e, false))
          (kill proc ;;;
           '(o, e) <- communicate proc ;;
           ret (o, e, true)) ;;
      stdout <- decode_utf8_ignore stdout_bytes ;;
      stderr <- decode_utf8_ignore stderr_bytes ;;
      rc <- getattr_returncode proc ;;
      let outcome := {| type := if timed_out : bool then timeout else exit;
                        exit_code := rc |} in
      let outputs := outputs ++ [ {| command := command; stdout := stdout;
                                     stderr := stderr; outcome := outcome |} ] in
      if timed_out : bool then ret outputs
      else run_commands self action rest outputs
  end.

Definition ShellExecutor_call (self : ShellExecutor)
    (request : ShellCommandRequest) : io ShellResult :=
  let action := action (data request) in
  require_approval (commands action) ;;;
  outputs <- run_commands self action (commands action) [] ;;
  ret {| output := outputs;
         provider_data := [("working_directory", cwd self)] |}.

End QaAgent.

(** ** Facts about [strip] and [lower] *)

Module PyStrFacts.
Import PyStr.

Definition allspace (s : string) : bool :=
  forallb isspace (list_ascii_of_string s).

(** The answers that are "y" or "yes" in some letter case. *)
Definition yes_variants : list string :=
  ["y"; "Y"; "yes"; "yeS"; "yEs"; "yES"; "Yes"; "YeS"; "YEs"; "YES"].

(** A line that is one of [yes_variants] between two runs of whitespace. *)
Definition padded_yes (line : string) : Prop :=
  exists pre core post,
    line = (pre ++ core ++ post)%string
    /\ allspace pre = true /\ allspace post = true /\ In core yes_variants.

(** The test the gate applies to the line it has read. *)
Definition approves (line : string) : bool :=
  let resp := lower (strip line) in
  String.eqb resp "y" || String.eqb resp "yes".

Lemma lstrip_split s :
  exists pre, s = (pre ++ lstrip s)%string /\ allspace pre = true.
Proof.
  induction s as [|c r [pre [E A]]]; simpl.
  - exists EmptyString; auto.
  - destruct (isspace c) eqn:Hc.
    + exists (String c pre); split.
      * simpl. now rewrite <- E.
      * unfold allspace in *; simpl. now rewrite Hc.
    + exists EmptyString; auto.
Qed.

Lemma rstrip_split s :
  exists post, s = (rstrip s ++ post)%string /\ allspace post = true.
Proof.
  induction s as [|c r [post [E A]]]; simpl.
  - exists EmptyString; auto.
  - destruct (rstrip r) as [|c' r'] eqn:Hr.
    + simpl in E. subst r. destruct (isspace c) eqn:Hc.
      * exists (String c post); split; [reflexivity|].
        unfold allspace in *; simpl. now rewrite Hc.
      * exists post; auto.
    + exists post; split; [|assumption]. simpl. now rewrite E at 1.
Qed.

Lemma allspace_app a b :
  allspace (a ++ b)%string = allspace a && allspace b.
Proof.
  unfold allspace. induction a as [|c r IH]; simpl; [reflexivity|].
  rewrite IH. now rewrite andb_assoc.
Qed.

Lemma strip_split s :
  exists pre post,
    s = (pre ++ strip s ++ post)%string
    /\ allspace pre = true /\ allspace post = true.
Proof.
  destruct (lstrip_split s) as [pre [E A]].
  destruct (rstrip_split (lstrip s)) as [post [E' A']].
  exists pre, post. unfold strip. now rewrite <- E', <- E.
Qed.

Lemma lstrip_app_space pre s :
  allspace pre = true -> lstrip (pre ++ s)%string = lstrip s.
Proof.
  unfold allspace. induction pre as [|c r IH]; simpl; [reflexivity|].
  intros H. apply andb_true_iff in H as [Hc Hr]. rewrite Hc. auto.
Qed.

Lemma rstrip_space post :
  allspace post = true -> rstrip post = EmptyString.
Proof.
  unfold allspace. induction post as [|c r IH]; simpl; [reflexivity|].
  intros H. apply andb_true_iff in H as [Hc Hr]. now rewrite IH, Hc.
Qed.

Lemma rstrip_app_space s post :
  allspace post = true -> rstrip (s ++ post)%string = rstrip s.
Proof.
  intros H. induction s as [|c r IH]; simpl.
  - now apply rstrip_space.
  - now rewrite IH.
Qed.

Lemma lstrip_length s : String.length (lstrip s) <= String.length s.
Proof.
  induction s as [|c r IH]; simpl; [lia|].
  destruct (isspace c); simpl; lia.
Qed.

Lemma strip_padded pre core post :
  allspace pre = true -> allspace post = true ->
  lstrip core = core -> rstrip core = core ->
  core <> EmptyString ->
  strip (pre ++ core ++ post)%string = core.
Proof.
  intros Hpre Hpost Hl Hr Hne. unfold strip.
  rewrite lstrip_app_space by assumption.
  destruct core as [|c r]; [congruence|].
  simpl in Hl |- *. destruct (isspace c) eqn:Hc.
  - exfalso. pose proof (lstrip_length r) as L.
    rewrite Hl in L. simpl in L. lia.
  - change (String c (r ++ post)%string) with (String c r ++ post)%string.
    now rewrite rstrip_app_space.
Qed.

Lemma lower_char_y c :
  lower_char c = "y"%char -> c = "y"%char \/ c = "Y"%char.
Proof.
  destruct c as [[] [] [] [] [] [] [] []]; vm_compute; intros H;
    solve [discriminate H | auto].
Qed.

Lemma lower_char_e c :
  lower_char c = "e"%char -> c = "e"%char \/ c = "E"%char.
Proof.
  destruct c as [[] [] [] [] [] [] [] []]; vm_compute; intros H;
    solve [discriminate H | auto].
Qed.

Lemma lower_char_s c :
  lower_char c = "s"%char -> c = "s"%char \/ c = "S"%char.
Proof.
  destruct c as [[] [] [] [] [] [] [] []]; vm_compute; intros H;
    solve [discriminate H | auto].
Qed.

Lemma lower_yes_variants s :
  lower s = "y" \/ lower s = "yes" <-> In s yes_variants.
Proof.
  split.
  - intros [H|H].
    + destruct s as [|a [|b r]]; simpl in H; try discriminate.
      injection H as Ha. destruct (lower_char_y _ Ha); subst; simpl; auto.
    + destruct s as [|a [|b [|c [|d r]]]]; simpl in H; try discriminate.
      injection H as Ha Hb Hc.
      destruct (lower_char_y _ Ha), (lower_char_e _ Hb), (lower_char_s _ Hc);
        subst; simpl; auto 12.
  - intros H. simpl in H.
    repeat (destruct H as [H|H]; [subst s; vm_compute; auto|]).
    contradiction.
Qed.

Lemma approves_lower line :
  approves line = true <->
  (lower (strip line) = "y" \/ lower (strip line) = "yes").
Proof.
  unfold approves. rewrite orb_true_iff, !String.eqb_eq. tauto.
Qed.

(** The gate's test, said without [strip] and [lower]. *)
Lemma approves_iff line : approves line = true <-> padded_yes line.
Proof.
  rewrite approves_lower, lower_yes_variants. split.
  - intros H. destruct (strip_split line) as [pre [post [E [A B]]]].
    exists pre, (strip line), post. auto.
  - intros [pre [core [post [E [A [B H]]]]]]. subst line.
    rewrite strip_padded; auto.
    + simpl in H.
      repeat (destruct H as [H|H]; [subst core; reflexivity|]). contradiction.
    + simpl in H.
      repeat (destruct H as [H|H]; [subst core; reflexivity|]). contradiction.
    + simpl in H.
      repeat (destruct H as [H|H]; [subst core; discriminate|]). contradiction.
Qed.

End PyStrFacts.
Import PyStrFacts.

(** ** The two scripts side by side *)

Inductive agent := Dev | Qa.

Definition require_approval_of (a : agent) : list string -> io unit :=
  match a with
  | Dev => DevAgent.require_approval
  | Qa => QaAgent.require_approval
  end.

Definition call_of (a : agent) : ShellExecutor -> ShellCommandRequest -> io ShellResult :=
  match a with
  | Dev => DevAgent.ShellExecutor_call
  | Qa => QaAgent.ShellExecutor_call
  end.

(** The error the gate raises when the operator says no. *)
Definition rejected : exn :=
  RuntimeError "Shell command execution rejected by user.".

(** The bypass flag is set: [SHELL_AUTO_APPROVE] holds ["1"]. *)
Definition bypass (w : World) : bool :=
  match lookup "SHELL_AUTO_APPROVE" (environ w) with
  | Some v => String.eqb v "1"
  | None => false
  end.

(** What the gate writes before it reads the answer. *)
Definition header (a : agent) : string :=
  match a with
  | Dev => (PyStr.nl ++ "Shell command approval required:" ++ PyStr.nl)%string
  | Qa => (PyStr.nl ++ "[QA] Shell command approval required:" ++ PyStr.nl)%string
  end.

Definition listing (a : agent) (c : string) : string :=
  match a with
  | Dev => ("  " ++ " " ++ c ++ PyStr.nl)%string
  | Qa => ("   " ++ " " ++ c ++ PyStr.nl)%string
  end.

Definition prompt_events (a : agent) (commands : list string) : list event :=
  Print (header a) :: map (fun c => Print (listing a c)) commands.

Definition logs (es : list event) (w : World) : World :=
  {| environ := environ w; stdin := stdin w; children := children w;
     utf8_ignore := utf8_ignore w; nspawn := nspawn w; killed := killed w;
     returncode := returncode w; trace := trace w ++ es |}.

(** The events a computation adds to the trace of the world it starts in. *)
Definition new_events {A} (m : io A) (w : World) : list event :=
  skipn (length (trace w)) (trace (snd (m w))).

Definition is_spawn (e : event) : bool :=
  match e with Spawn _ _ _ _ => true | _ => false end.

Section Gate.

Lemma logs_nil w : logs [] w = w.
Proof. destruct w; unfold logs; simpl. now rewrite app_nil_r. Qed.

Lemma logs_logs es1 es2 w : logs es2 (logs es1 w) = logs (es1 ++ es2) w.
Proof. unfold logs; simpl. now rewrite app_assoc. Qed.

Lemma log_logs e w : log e w = logs [e] w.
Proof. reflexivity. Qed.

Lemma for_each_print (f : string -> string) (body : string -> io unit) cmds :
  (forall c w, body c w = (Return tt, log (Print (f c)) w)) ->
  forall w, for_each cmds body w = (Return tt, logs (map (fun c => Print (f c)) cmds) w).
Proof.
  intros Hbody. induction cmds as [|c r IH]; intros w; simpl.
  - unfold ret. now rewrite logs_nil.
  - unfold bind. rewrite Hbody, IH, log_logs, logs_logs. reflexivity.
Qed.

(** The gate, unfolded once and for all. *)
Lemma gate_unfold a cmds w :
  require_approval_of a cmds w =
  if bypass w then (Return tt, w)
  else
    let w1 := logs (prompt_events a cmds) w in
    match stdin w with
    | [] => (Raise EOFError, log (Input "Proceed? [y/N] " None) w1)
    | line :: rest =>
        (if approves line then Return tt else Raise rejected,
         log (Input "Proceed? [y/N] " (Some line)) (set_stdin rest w1))
    end.
Proof.
  destruct a; simpl;
    unfold DevAgent.require_approval, QaAgent.require_approval,
      DevAgent.AUTO_APPROVE_ENV, bypass;
    unfold bind at 1; unfold os_environ_get;
    (destruct (match lookup "SHELL_AUTO_APPROVE" (environ w) with
               | Some v => String.eqb v "1" | None => false end);
     [reflexivity|]);
    unfold bind at 1; unfold print at 1;
    unfold bind at 1.
  - rewrite (for_each_print (fun c => ("  " ++ " " ++ c ++ PyStr.nl)%string))
      by (intros; reflexivity).
    rewrite log_logs, logs_logs. unfold bind, input. simpl.
    destruct (stdin w) as [|line rest]; [reflexivity|].
    fold (approves line). unfold raise, ret.
    destruct (approves line); reflexivity.
  - rewrite (for_each_print (fun c => ("   " ++ " " ++ c ++ PyStr.nl)%string))
      by (intros; reflexivity).
    rewrite log_logs, logs_logs. unfold bind, input. simpl.
    destruct (stdin w) as [|line rest]; [reflexivity|].
    fold (approves line). unfold raise, ret.
    destruct (approves line); reflexivity.
Qed.

End Gate.

(** ** One turn of the loop *)

(** The bounded wait on a child of lifetime [d] ends in [TimeoutError]. *)
Definition times_out (bound d : option Q) : bool :=
  match d, bound with
  | Some x, Some q => negb (Qle_bool x q)
  | None, Some _ => true
  | _, None => false
  end.

(** The wait never ends: no bound, and the child does not exit. *)
Definition hangs (bound d : option Q) : bool :=
  match d, bound with
  | None, None => true
  | _, _ => false
  end.

(** The entry appended for [command] when its child left [c]. *)
Definition entry (decode : list Byte.byte -> string) (command : string)
    (c : Completed) (ty : outcome_type) : ShellCommandOutput :=
  {| command := command;
     stdout := decode (stdout_bytes c);
     stderr := decode (stderr_bytes c);
     outcome := {| type := ty; exit_code := status c |} |}.

Definition spawned_world (self : ShellExecutor) (c : string) (w : World) : World :=
  log (Spawn (nspawn w) c (cwd self) (environ w))
      (fresh (nspawn w) (set_nspawn (S (nspawn w)) w)).

Definition waiting_world (self : ShellExecutor) (t : option Q) (c : string)
    (w : World) : World :=
  log (Wait (nspawn w) t) (spawned_world self c w).

Definition exited_world (self : ShellExecutor) (t : option Q) (c : string)
    (fin : Completed) (w : World) : World :=
  set_returncode (nspawn w) (status fin) (waiting_world self t c w).

Definition killed_world (self : ShellExecutor) (t : option Q) (c : string)
    (kil : Completed) (w : World) : World :=
  set_returncode (nspawn w) (status kil)
    (log (Communicate (nspawn w))
       (log (Kill (nspawn w)) (set_killed (nspawn w) (waiting_world self t c w)))).

Section Loop.

Variable self : ShellExecutor.
Variable action : ShellActionRequest.

Let t := timeout_of (timeout_ms action).

Lemma upd_same {V} (f : nat -> V) k v : upd f k v k = v.
Proof. unfold upd. now rewrite Nat.eqb_refl. Qed.

Lemma run_commands_cons c rest outs w :
  DevAgent.run_commands self action (c :: rest) outs w =
  match children w (nspawn w) with
  | SpawnFails => (Raise OSError, set_nspawn (S (nspawn w)) w)
  | Runs d fin kil =>
      if hangs t d then (Hang, waiting_world self t c w)
      else if times_out t d
      then (Return (outs ++ [entry (utf8_ignore w) c kil timeout]), killed_world self t c kil w)
      else DevAgent.run_commands self action rest
             (outs ++ [entry (utf8_ignore w) c fin exit]) (exited_world self t c fin w)
  end.
Proof.
  simpl DevAgent.run_commands.
  unfold bind, os_environ_copy, create_subprocess_shell,
    try_except_TimeoutError, wait_for_communicate, kill, communicate,
    communicate_within, collect, decode_utf8_ignore, getattr_returncode, ret.
  destruct (children w (nspawn w)) as [|d fin kil]; [reflexivity|].
  fold t. clearbody t.
  cbn [pid p_lifetime p_at_exit p_at_kill killed log fresh set_nspawn
       set_killed set_returncode returncode nspawn].
  rewrite !upd_same.
  destruct d as [x|], t as [q|]; simpl hangs; simpl times_out;
    [destruct (Qle_bool x q); simpl negb| | |];
    unfold entry, killed_world, exited_world, waiting_world, spawned_world;
    simpl; rewrite ?upd_same; simpl; rewrite ?upd_same; reflexivity.
Qed.

End Loop.

(** ** The loop and the call as functions of the host's answers *)

Definition lift {A B} (f : A -> B) (r : result A) : result B :=
  match r with
  | Return a => Return (f a)
  | Raise e => Raise e
  | Hang => Hang
  end.

(** What the loop yields for the commands [todo] when the next process
    creation is the [k]-th: it depends on the children and the codec only. *)
Fixpoint loop_result (kids : nat -> Child) (decode : list Byte.byte -> string)
    (t : option Q) (k : nat) (todo : list string)
    : result (list ShellCommandOutput) :=
  match todo with
  | [] => Return []
  | c :: rest =>
      match kids k with
      | SpawnFails => Raise OSError
      | Runs d fin kil =>
          if hangs t d then Hang
          else if times_out t d then Return [entry decode c kil timeout]
          else lift (cons (entry decode c fin exit))
                    (loop_result kids decode t (S k) rest)
      end
  end.

(** How the gate ends, as a function of the environment and the terminal. *)
Definition gate_verdict (w : World) : result unit :=
  if bypass w then Return tt
  else match stdin w with
       | [] => Raise EOFError
       | line :: _ => if approves line then Return tt else Raise rejected
       end.

Definition call_result (self : ShellExecutor) (request : ShellCommandRequest)
    (w : World) : result ShellResult :=
  let action := action (data request) in
  match gate_verdict w with
  | Return _ =>
      lift (fun outs => {| output := outs;
                           provider_data := [("working_directory", cwd self)] |})
           (loop_result (children w) (utf8_ignore w)
              (timeout_of (timeout_ms action)) (nspawn w) (commands action))
  | Raise e => Raise e
  | Hang => Hang
  end.

Section Bridge.

Lemma qa_run_commands : QaAgent.run_commands = DevAgent.run_commands.
Proof. reflexivity. Qed.

Lemma run_commands_result self action todo :
  forall outs w,
    fst (DevAgent.run_commands self action todo outs w) =
    lift (app outs)
         (loop_result (children w) (utf8_ignore w)
            (timeout_of (timeout_ms action)) (nspawn w) todo).
Proof.
  induction todo as [|c rest IH]; intros outs w.
  - simpl. now rewrite app_nil_r.
  - rewrite run_commands_cons. simpl loop_result.
    destruct (children w (nspawn w)) as [|d fin kil]; [reflexivity|].
    destruct (hangs _ d); [reflexivity|].
    destruct (times_out _ d); [reflexivity|].
    rewrite IH. simpl.
    destruct (loop_result _ _ _ _ rest); simpl; try reflexivity.
    now rewrite <- app_assoc.
Qed.

(** The loop only appends to the trace, and every wait it starts has the
    request's bound. *)
Lemma run_commands_trace self action todo :
  forall outs w,
    exists evs,
      trace (snd (DevAgent.run_commands self action todo outs w)) = trace w ++ evs
      /\ forall p b, In (Wait p b) evs -> b = timeout_of (timeout_ms action).
Proof.
  induction todo as [|c rest IH]; intros outs w.
  - exists []. simpl. rewrite app_nil_r. split; [reflexivity|]. intros ? ? [].
  - rewrite run_commands_cons.
    destruct (children w (nspawn w)) as [|d fin kil].
    + exists []. simpl. rewrite app_nil_r. split; [reflexivity|]. intros ? ? [].
    + set (t := timeout_of (timeout_ms action)).
      destruct (hangs t d); [|destruct (times_out t d)].
      * exists [Spawn (nspawn w) c (cwd self) (environ w); Wait (nspawn w) t].
        simpl. rewrite <- app_assoc. split; [reflexivity|].
        intros p b [H|[H|[]]]; [discriminate|]. now injection H as _ <-.
      * exists [Spawn (nspawn w) c (cwd self) (environ w); Wait (nspawn w) t;
                Kill (nspawn w); Communicate (nspawn w)].
        simpl. rewrite <- !app_assoc. split; [reflexivity|].
        intros p b [H|[H|[H|[H|[]]]]]; try discriminate.
        now injection H as _ <-.
      * destruct (IH (outs ++ [entry (utf8_ignore w) c fin exit])
                     (exited_world self t c fin w)) as [evs [E W]].
        exists (Spawn (nspawn w) c (cwd self) (environ w)
                :: Wait (nspawn w) t :: evs).
        rewrite E. simpl. rewrite <- !app_assoc. split; [reflexivity|].
        intros p b [H|[H|H]]; [discriminate| |now apply (W p)].
        now injection H as _ <-.
Qed.

Lemma gate_result a cmds w :
  fst (require_approval_of a cmds w) = gate_verdict w.
Proof.
  rewrite gate_unfold. unfold gate_verdict.
  destruct (bypass w); [reflexivity|].
  destruct (stdin w); reflexivity.
Qed.

(** The gate touches the terminal only. *)
Lemma gate_frame a cmds w :
  let w1 := snd (require_approval_of a cmds w) in
  children w1 = children w /\ utf8_ignore w1 = utf8_ignore w
  /\ nspawn w1 = nspawn w /\ environ w1 = environ w.
Proof.
  rewrite gate_unfold.
  destruct (bypass w); [simpl; auto|].
  destruct (stdin w); simpl; auto.
Qed.

Lemma gate_trace a cmds w :
  trace (snd (require_approval_of a cmds w)) =
  trace w ++ (if bypass w then []
              else prompt_events a cmds
                     ++ [Input "Proceed? [y/N] " (hd_error (stdin w))]).
Proof.
  rewrite gate_unfold.
  destruct (bypass w); [simpl; now rewrite app_nil_r|].
  destruct (stdin w); simpl; now rewrite <- app_assoc.
Qed.

Lemma call_unfold a self request w :
  call_of a self request w =
  let action := action (data request) in
  match require_approval_of a (commands action) w with
  | (Return _, w1) =>
      match DevAgent.run_commands self action (commands action) [] w1 with
      | (r, w2) =>
          (lift (fun outs => {| output := outs;
                                provider_data := [("working_directory", cwd self)] |}) r,
           w2)
      end
  | (Raise e, w1) => (Raise e, w1)
  | (Hang, w1) => (Hang, w1)
  end.
Proof.
  destruct a; simpl;
    unfold DevAgent.ShellExecutor_call, QaAgent.ShellExecutor_call;
    rewrite ?qa_run_commands; unfold bind at 1.
  - destruct (DevAgent.require_approval _ w) as [[u|e|] w1]; try reflexivity.
    unfold bind, ret.
    destruct (DevAgent.run_commands _ _ _ _ w1) as [[l|e|] w2]; reflexivity.
  - destruct (QaAgent.require_approval _ w) as [[u|e|] w1]; try reflexivity.
    unfold bind, ret.
    destruct (DevAgent.run_commands _ _ _ _ w1) as [[l|e|] w2]; reflexivity.
Qed.

(** The outcome of a call, in either script. *)
Lemma call_of_result a self request w :
  fst (call_of a self request w) = call_result self request w.
Proof.
  rewrite call_unfold. unfold call_result. cbv zeta.
  rewrite <- (gate_result a (commands (action (data request))) w).
  pose proof (gate_frame a (commands (action (data request))) w) as F.
  destruct (require_approval_of a _ w) as [[u|e|] w1]; simpl in *;
    try reflexivity.
  destruct F as [Fc [Fu [Fn _]]].
  pose proof (run_commands_result self (action (data request))
                (commands (action (data request))) [] w1) as R.
  destruct (DevAgent.run_commands _ _ _ _ w1) as [r w2]. simpl in *.
  rewrite R, Fc, Fu, Fn. clear R.
  destruct (loop_result _ _ _ _ _); reflexivity.
Qed.

End Bridge.

(** ** The shape of the loop's result *)


Section LoopResult.

Variable kids : nat -> Child.
Variable decode : list Byte.byte -> string.
Variable t : option Q.

Lemma lift_Return {A B} (f : A -> B) r b :
  lift f r = Return b -> exists a, r = Return a /\ b = f a.
Proof. destruct r; simpl; intros H; inversion H; eauto. Qed.

(** Every entry comes from the command and the child at its position. *)
Lemma loop_result_entries todo :
  forall k l,
    loop_result kids decode t k todo = Return l ->
    forall i o,
      nth_error l i = Some o ->
      exists c d fin kil,
        nth_error todo i = Some c
        /\ kids (k + i) = Runs d fin kil
        /\ hangs t d = false
        /\ ((times_out t d = true /\ o = entry decode c kil timeout
             /\ length l = S i)
            \/ (times_out t d = false /\ o = entry decode c fin exit)).
Proof.
  induction todo as [|c rest IH]; intros k l H i o Hi; simpl in H.
  - injection H as <-. destruct i; discriminate.
  - destruct (kids k) as [|d fin kil] eqn:Ek; [discriminate|].
    destruct (hangs t d) eqn:Eh; [discriminate|].
    destruct (times_out t d) eqn:Et.
    + injection H as <-. destruct i as [|i]; simpl in Hi.
      * injection Hi as <-. exists c, d, fin, kil.
        rewrite Nat.add_0_r. auto 10.
      * destruct i; discriminate.
    + apply lift_Return in H as [l' [H ->]].
      destruct i as [|i]; simpl in Hi.
      * injection Hi as <-. exists c, d, fin, kil.
        rewrite Nat.add_0_r. auto 10.
      * destruct (IH _ _ H _ _ Hi) as [c' [d' [fin' [kil' [A [B [C D]]]]]]].
        exists c', d', fin', kil'. rewrite Nat.add_succ_r.
        repeat split; auto.
        destruct D as [[D1 [D2 D3]]|D]; [left|right; exact D].
        simpl. auto.
Qed.

(** The entries name the first commands of the list, in order. *)
Lemma loop_result_commands todo :
  forall k l,
    loop_result kids decode t k todo = Return l ->
    map command l = firstn (length l) todo.
Proof.
  induction todo as [|c rest IH]; intros k l H; simpl in H.
  - now injection H as <-.
  - destruct (kids k) as [|d fin kil]; [discriminate|].
    destruct (hangs t d); [discriminate|].
    destruct (times_out t d).
    + now injection H as <-.
    + apply lift_Return in H as [l' [H ->]]. simpl.
      now rewrite (IH _ _ H).
Qed.




(** The loop raises only when a child cannot be created. *)
Lemma loop_result_raises todo :
  forall k e,
    loop_result kids decode t k todo = Raise e ->
    e = OSError /\ exists i, i < length todo /\ kids (k + i) = SpawnFails.
Proof.
  induction todo as [|c rest IH]; intros k e H; simpl in H; [discriminate|].
  destruct (kids k) as [|d fin kil] eqn:Ek.
  - injection H as <-. split; [reflexivity|].
    exists 0. simpl. rewrite Nat.add_0_r. split; [lia|assumption].
  - destruct (hangs t d); [discriminate|].
    destruct (times_out t d); [discriminate|].
    destruct (loop_result kids decode t (S k) rest) eqn:El; try discriminate.
    injection H as <-.
    destruct (IH _ _ El) as [-> [i [Hi Hs]]]. split; [reflexivity|].
    exists (S i). simpl. rewrite Nat.add_succ_r. split; [lia|assumption].
Qed.

End LoopResult.

(** ** Concrete hosts *)

Module Examples.

Definition ended (out : list Byte.byte) (rc : Z) : Completed :=
  {| stdout_bytes := out; stderr_bytes := []; status := Some rc |}.

(** A child that exits by itself after 10 ms. *)
Definition quick (out : list Byte.byte) (rc : Z) : Child :=
  Runs (Some (1 # 100)%Q) (ended out rc) (ended [] (-9)).

(** [sleep 5]: exits after five seconds, reports -9 when killed. *)
Definition sleep5 : Child :=
  Runs (Some (5 # 1)%Q) (ended [] 0) (ended [] (-9)).

Definition host (env : list (string * string)) (lines : list string)
    (kids : nat -> Child) : World :=
  {| environ := env; stdin := lines; children := kids;
     utf8_ignore := string_of_list_byte;
     nspawn := 0; killed := fun _ => false; returncode := fun _ => None;
     trace := [] |}.

Definition auto : list (string * string) := [("SHELL_AUTO_APPROVE", "1")].

Definition request (cmds : list string) (ms : option Z) : ShellCommandRequest :=
  {| data := {| action := {| commands := cmds; timeout_ms := ms |} |} |}.

Definition repo : ShellExecutor := {| cwd := "/repo" |}.

(** ["echo one"; "sleep 5"; "echo three"] *)
Definition three_kids (k : nat) : Child :=
  match k with
  | 1 => sleep5
  | _ => quick [] 0
  end.

Definition sleep_entry : ShellCommandOutput :=
  {| command := "sleep 5"; stdout := ""; stderr := "";
     outcome := {| type := timeout; exit_code := Some (-9)%Z |} |}.

Definition echo_entry (c : string) : ShellCommandOutput :=
  {| command := c; stdout := ""; stderr := "";
     outcome := {| type := exit; exit_code := Some 0%Z |} |}.

Definition result_of (l : list ShellCommandOutput) : ShellResult :=
  {| output := l; provider_data := [("working_directory", "/repo")] |}.

End Examples.

(** ** Events of a call *)

Section Events.

Lemma new_events_app {A} (m : io A) w evs :
  trace (snd (m w)) = trace w ++ evs -> new_events m w = evs.
Proof.
  unfold new_events. intros ->.
  rewrite skipn_app, skipn_all, Nat.sub_diag. reflexivity.
Qed.

Lemma bypass_false w :
  lookup "SHELL_AUTO_APPROVE" (environ w) <> Some "1" <-> bypass w = false.
Proof.
  unfold bypass. destruct (lookup _ _) as [v|]; [|split; congruence].
  destruct (String.eqb_spec v "1"); split; congruence.
Qed.

Lemma call_when_gate_raises a self request w e :
  fst (require_approval_of a (commands (action (data request))) w) = Raise e ->
  call_of a self request w =
  (Raise e, snd (require_approval_of a (commands (action (data request))) w)).
Proof.
  rewrite call_unfold. cbv zeta.
  destruct (require_approval_of a _ w) as [[u|e'|] w1]; simpl;
    intros H; inversion H; reflexivity.
Qed.

Lemma gate_events a cmds w :
  new_events (require_approval_of a cmds) w =
  if bypass w then []
  else prompt_events a cmds ++ [Input "Proceed? [y/N] " (hd_error (stdin w))].
Proof. apply new_events_app, gate_trace. Qed.

(** A call adds the gate's events, then the loop's; the loop's waits all
    carry the request's bound. *)
Lemma call_events a self request w :
  let cmds := commands (action (data request)) in
  exists evs,
    new_events (call_of a self request) w =
    new_events (require_approval_of a cmds) w ++ evs
    /\ forall p b, In (Wait p b) evs ->
                   b = timeout_of (timeout_ms (action (data request))).
Proof.
  cbv zeta. set (cmds := commands (action (data request))).
  pose proof (gate_trace a cmds w) as G. rewrite gate_events.
  set (gevs := if bypass w then []
               else prompt_events a cmds
                      ++ [Input "Proceed? [y/N] " (hd_error (stdin w))]) in *.
  assert (T : exists evs,
             trace (snd (call_of a self request w)) = trace w ++ gevs ++ evs
             /\ forall p b, In (Wait p b) evs ->
                            b = timeout_of (timeout_ms (action (data request)))).
  { rewrite call_unfold. cbv zeta. fold cmds.
    destruct (require_approval_of a cmds w) as [[u|e|] w1]; simpl in G.
    - destruct (run_commands_trace self (action (data request)) cmds [] w1)
        as [evs [E W]].
      exists evs. split; [|exact W].
      destruct (DevAgent.run_commands _ _ cmds [] w1) as [r w2]. simpl in *.
      now rewrite E, G, <- app_assoc.
    - exists []. split; [|intros ? ? []]. simpl. now rewrite G, app_nil_r.
    - exists []. split; [|intros ? ? []]. simpl. now rewrite G, app_nil_r. }
  destruct T as [evs [E W]]. exists evs. split; [|exact W].
  now apply new_events_app.
Qed.

End Events.

(** ** The approval gate *)

(** C8.  When [SHELL_AUTO_APPROVE] holds the literal ["1"], [require_approval]
    of either script returns at once for every command list: it returns
    normally and leaves the world as it found it, so nothing was printed and
    no line was read from the operator. *)
Theorem bypass_returns_at_once (a : agent) (cmds : list string) (w : World) :
  lookup "SHELL_AUTO_APPROVE" (environ w) = Some "1" ->
  require_approval_of a cmds w = (Return tt, w).
Proof.
  intros H. rewrite gate_unfold. unfold bypass. now rewrite H.
Qed.

Lemma bypass_returns_at_once_witness :
  require_approval_of Qa ["npm run lint"; "npm test"]
    (Examples.host Examples.auto ["n"] Examples.three_kids)
  = (Return tt, Examples.host Examples.auto ["n"] Examples.three_kids).
Proof.
  apply (bypass_returns_at_once Qa). reflexivity.
Defined.

(** C2, as stated, fails: without the bypass flag the operator's line [" y"]
    is not "y" or "yes" in any letter case, and the gate still returns
    normally. *)
Lemma padded_answer_approves :
  ~ (fst (require_approval_of Dev ["ls"]
            (Examples.host [] [" y"] Examples.three_kids)) = Return tt
     <-> In " y" yes_variants).
Proof.
  intros [H _]. specialize (H eq_refl). simpl in H.
  repeat (destruct H as [H|H]; [discriminate H|]). exact H.
Qed.

(** C2, amended.  When the bypass flag is unset and the operator types [line],
    [require_approval] returns normally if and only if [line], once the
    whitespace at its two ends is removed, is "y" or "yes" in some letter
    case; for every other line, the empty one included, it raises the
    rejection error. *)
Theorem approval_iff_padded_yes (a : agent) (cmds : list string) (w : World)
    (line : string) (rest : list string) :
  lookup "SHELL_AUTO_APPROVE" (environ w) <> Some "1" ->
  stdin w = line :: rest ->
  (fst (require_approval_of a cmds w) = Return tt <-> padded_yes line)
  /\ (fst (require_approval_of a cmds w) = Raise rejected <-> ~ padded_yes line).
Proof.
  intros Hflag Hin. apply bypass_false in Hflag.
  rewrite gate_result. unfold gate_verdict. rewrite Hflag, Hin.
  rewrite <- approves_iff.
  destruct (approves line); split; split; intros H;
    try discriminate; try reflexivity; congruence.
Qed.

Lemma approval_iff_padded_yes_witness :
  (fst (require_approval_of Dev ["ls"]
          (Examples.host [] [""] Examples.three_kids)) = Return tt
   <-> padded_yes "")
  /\ (fst (require_approval_of Dev ["ls"]
             (Examples.host [] [""] Examples.three_kids)) = Raise rejected
      <-> ~ padded_yes "").
Proof.
  apply (approval_iff_padded_yes Dev ["ls"] _ "" []).
  - simpl. discriminate.
  - reflexivity.
Defined.

(** C10.  When the bypass flag is unset, [require_approval] of the empty
    command list still prints the prompt header and reads the operator's
    line: the call adds exactly the header and the prompt to the trace and
    consumes one line.  Approval still takes the answer "y" or "yes", read as
    the gate reads every answer (the whitespace at its ends and the case of
    its letters set aside): the gate returns normally for such a line and
    raises the rejection error for any other. *)
Theorem empty_batch_still_prompts (a : agent) (w : World)
    (line : string) (rest : list string) :
  lookup "SHELL_AUTO_APPROVE" (environ w) <> Some "1" ->
  stdin w = line :: rest ->
  new_events (require_approval_of a []) w
  = [Print (header a); Input "Proceed? [y/N] " (Some line)]
  /\ stdin (snd (require_approval_of a [] w)) = rest
  /\ (padded_yes line -> fst (require_approval_of a [] w) = Return tt)
  /\ (~ padded_yes line -> fst (require_approval_of a [] w) = Raise rejected).
Proof.
  intros Hflag Hin. apply bypass_false in Hflag.
  rewrite gate_events, gate_unfold, Hflag, Hin. cbv zeta.
  rewrite <- approves_iff. simpl.
  repeat split; try reflexivity.
  - now intros ->.
  - now destruct (approves line).
Qed.

Lemma empty_batch_still_prompts_witness :
  new_events (require_approval_of Qa [])
    (Examples.host [] ["no"] Examples.three_kids)
  = [Print (header Qa); Input "Proceed? [y/N] " (Some "no")]
  /\ stdin (snd (require_approval_of Qa []
                   (Examples.host [] ["no"] Examples.three_kids))) = []
  /\ (padded_yes "no" ->
      fst (require_approval_of Qa []
             (Examples.host [] ["no"] Examples.three_kids)) = Return tt)
  /\ (~ padded_yes "no" ->
      fst (require_approval_of Qa []
             (Examples.host [] ["no"] Examples.three_kids)) = Raise rejected).
Proof.
  apply (empty_batch_still_prompts Qa _ "no" []).
  - simpl. discriminate.
  - reflexivity.
Defined.

(** ** The executor *)

(** C4.  If the approval gate rejects the batch, [ShellExecutor.__call__] of
    either script fails with the rejection error before any child process is
    created: the count of process creations is unchanged, no event of the
    call is a process creation, and no [ShellResult] comes back. *)
Theorem rejection_spawns_nothing (a : agent) (self : ShellExecutor)
    (request : ShellCommandRequest) (w : World) :
  fst (require_approval_of a (commands (action (data request))) w)
  = Raise rejected ->
  fst (call_of a self request w) = Raise rejected
  /\ nspawn (snd (call_of a self request w)) = nspawn w
  /\ forall e, In e (new_events (call_of a self request) w) -> is_spawn e = false.
Proof.
  intros H.
  pose proof (gate_frame a (commands (action (data request))) w) as [_ [_ [N _]]].
  pose proof (gate_events a (commands (action (data request))) w) as G.
  unfold new_events in *.
  rewrite (call_when_gate_raises a self request w rejected H). simpl.
  repeat split; [exact N|].
  rewrite G. intros e He. destruct (bypass w); [destruct He|].
  apply in_app_or in He as [He|[<-|[]]]; [|reflexivity].
  unfold prompt_events in He. destruct He as [<-|He]; [reflexivity|].
  apply in_map_iff in He as [c [<- _]]. reflexivity.
Qed.

Lemma rejection_spawns_nothing_witness :
  fst (call_of Dev Examples.repo
         (Examples.request ["echo a"; "echo b"] None)
         (Examples.host [] ["n"] Examples.three_kids)) = Raise rejected
  /\ nspawn (snd (call_of Dev Examples.repo
                    (Examples.request ["echo a"; "echo b"] None)
                    (Examples.host [] ["n"] Examples.three_kids)))
     = nspawn (Examples.host [] ["n"] Examples.three_kids)
  /\ forall e,
       In e (new_events (call_of Dev Examples.repo
                           (Examples.request ["echo a"; "echo b"] None))
               (Examples.host [] ["n"] Examples.three_kids)) ->
       is_spawn e = false.
Proof.
  apply (rejection_spawns_nothing Dev). reflexivity.
Defined.

(** C1, as stated, fails: with the bypass flag set and a bound of 100 ms,
    [sleep 5] is killed, and its entry is tagged [timeout] while it carries
    the return code -9 of the killed child. *)
Lemma timeout_entry_with_exit_code :
  exists res o,
    fst (call_of Dev Examples.repo
           (Examples.request ["sleep 5"] (Some 100%Z))
           (Examples.host Examples.auto [] (fun _ => Examples.sleep5)))
    = Return res
    /\ In o (output res)
    /\ type (outcome o) = timeout
    /\ exit_code (outcome o) = Some (-9)%Z.
Proof.
  exists (Examples.result_of [Examples.sleep_entry]), Examples.sleep_entry.
  repeat split. simpl. auto.
Qed.

(** C1, amended.  In every [ShellResult] returned by [ShellExecutor.__call__],
    an entry tagged [timeout] belongs to a child whose bounded wait ran out,
    and its exit code is the return code that child reports once it has been
    killed and drained (absent only when the child reports none); an entry
    tagged [exit] carries the return code of a child that ended by itself. *)
Theorem exit_code_is_returncode (a : agent) (self : ShellExecutor)
    (request : ShellCommandRequest) (w : World) (res : ShellResult)
    (i : nat) (o : ShellCommandOutput) :
  fst (call_of a self request w) = Return res ->
  nth_error (output res) i = Some o ->
  exists d fin kil,
    children w (nspawn w + i) = Runs d fin kil
    /\ (type (outcome o) = timeout ->
        times_out (timeout_of (timeout_ms (action (data request)))) d = true
        /\ exit_code (outcome o) = status kil)
    /\ (type (outcome o) = exit ->
        times_out (timeout_of (timeout_ms (action (data request)))) d = false
        /\ exit_code (outcome o) = status fin).
Proof.
  rewrite call_of_result. unfold call_result.
  destruct (gate_verdict w); try discriminate.
  intros H Hi. apply lift_Return in H as [l [H ->]]. simpl in Hi.
  destruct (loop_result_entries _ _ _ _ _ _ H _ _ Hi)
    as [c [d [fin [kil [_ [K [_ [[T [-> _]]|[T ->]]]]]]]]];
    exists d, fin, kil; simpl; repeat split; auto; discriminate.
Qed.

Lemma exit_code_is_returncode_witness :
  exists d fin kil,
    Examples.three_kids (0 + 1) = Runs d fin kil
    /\ (timeout = timeout ->
        times_out (timeout_of (Some 100%Z)) d = true
        /\ Some (-9)%Z = status kil)
    /\ (timeout = exit ->
        times_out (timeout_of (Some 100%Z)) d = false
        /\ Some (-9)%Z = status fin).
Proof.
  apply (exit_code_is_returncode Dev Examples.repo
           (Examples.request ["echo one"; "sleep 5"; "echo three"] (Some 100%Z))
           (Examples.host Examples.auto [] Examples.three_kids)
           (Examples.result_of [Examples.echo_entry "echo one"; Examples.sleep_entry])
           1 Examples.sleep_entry).
  - reflexivity.
  - reflexivity.
Defined.



(** C7.  In every [ShellResult] returned by [ShellExecutor.__call__] the
    entry at a position has as its [command] the very string submitted at
    that position of the request, so the entries follow the order of the
    request's commands. *)
Theorem command_fields_verbatim (a : agent) (self : ShellExecutor)
    (request : ShellCommandRequest) (w : World) (res : ShellResult) :
  fst (call_of a self request w) = Return res ->
  map command (output res)
  = firstn (length (output res)) (commands (action (data request)))
  /\ forall i o, nth_error (output res) i = Some o ->
                 nth_error (commands (action (data request))) i
                 = Some (command o).
Proof.
  rewrite call_of_result. unfold call_result.
  destruct (gate_verdict w); try discriminate.
  intros H. apply lift_Return in H as [l [H ->]]. simpl. split.
  - exact (loop_result_commands _ _ _ _ _ _ H).
  - intros i o Hi.
    destruct (loop_result_entries _ _ _ _ _ _ H _ _ Hi)
      as [c [d [fin [kil [C [_ [_ [[_ [-> _]]|[_ ->]]]]]]]]]; exact C.
Qed.

Lemma command_fields_verbatim_witness :
  map command [Examples.echo_entry "echo one"; Examples.sleep_entry]
  = firstn (length [Examples.echo_entry "echo one"; Examples.sleep_entry])
      ["echo one"; "sleep 5"; "echo three"]
  /\ forall i o,
       nth_error [Examples.echo_entry "echo one"; Examples.sleep_entry] i = Some o ->
       nth_error ["echo one"; "sleep 5"; "echo three"] i = Some (command o).
Proof.
  apply (command_fields_verbatim Qa Examples.repo
           (Examples.request ["echo one"; "sleep 5"; "echo three"] (Some 100%Z))
           (Examples.host [] ["Yes"] Examples.three_kids)
           (Examples.result_of [Examples.echo_entry "echo one"; Examples.sleep_entry])).
  reflexivity.
Defined.

(** C9.  The two executors agree: for every executor configuration, request
    and host, [__call__] of [dev_agent.py] and [__call__] of [qa_agent.py]
    end the same way, with the same [ShellResult] (outputs and
    [provider_data]) when they return and the same error when they raise. *)
Theorem dev_and_qa_agree (self : ShellExecutor) (request : ShellCommandRequest)
    (w : World) :
  fst (DevAgent.ShellExecutor_call self request w)
  = fst (QaAgent.ShellExecutor_call self request w).
Proof.
  change (fst (call_of Dev self request w) = fst (call_of Qa self request w)).
  now rewrite !call_of_result.
Qed.

(** * Further properties of the pipeline *)

(** ** What the loop does to the host *)

(** The events of the loop for the commands [todo], when the next process
    creation is the [k]-th: a creation and a wait per command, and a kill and
    a drain after the wait that timed out. *)
Fixpoint loop_events (self : ShellExecutor) (env : list (string * string))
    (kids : nat -> Child) (t : option Q) (k : nat) (todo : list string)
    : list event :=
  match todo with
  | [] => []
  | c :: rest =>
      match kids k with
      | SpawnFails => []
      | Runs d fin kil =>
          Spawn k c (cwd self) env :: Wait k t ::
          (if hangs t d then []
           else if times_out t d then [Kill k; Communicate k]
           else loop_events self env kids t (S k) rest)
      end
  end.

Definition is_input (e : event) : bool :=
  match e with Input _ _ => true | _ => false end.

Definition is_print (e : event) : bool :=
  match e with Print _ => true | _ => false end.

Definition is_kill (e : event) : bool :=
  match e with Kill _ => true | _ => false end.

Section LoopFrame.

Variable self : ShellExecutor.
Variable action : ShellActionRequest.

Lemma run_commands_events todo :
  forall outs w,
    trace (snd (DevAgent.run_commands self action todo outs w)) =
    trace w ++ loop_events self (environ w) (children w)
                 (timeout_of (timeout_ms action)) (nspawn w) todo.
Proof.
  induction todo as [|c rest IH]; intros outs w.
  - simpl. now rewrite app_nil_r.
  - rewrite run_commands_cons. simpl loop_events.
    destruct (children w (nspawn w)) as [|d fin kil].
    + simpl. now rewrite app_nil_r.
    + destruct (hangs _ d); [|destruct (times_out _ d)].
      * simpl. now rewrite <- app_assoc.
      * simpl. now rewrite <- !app_assoc.
      * rewrite IH. simpl. now rewrite <- !app_assoc.
Qed.

(** The loop leaves the environment, the terminal, the children to come and
    the codec alone. *)
Lemma run_commands_frame todo :
  forall outs w,
    let w' := snd (DevAgent.run_commands self action todo outs w) in
    environ w' = environ w /\ stdin w' = stdin w
    /\ children w' = children w /\ utf8_ignore w' = utf8_ignore w.
Proof.
  induction todo as [|c rest IH]; intros outs w; cbv zeta.
  - simpl. auto.
  - rewrite run_commands_cons.
    destruct (children w (nspawn w)) as [|d fin kil]; [simpl; auto|].
    destruct (hangs _ d); [simpl; auto|].
    destruct (times_out _ d); [simpl; auto|].
    destruct (IH (outs ++ [entry (utf8_ignore w) c fin exit])
                 (exited_world self (timeout_of (timeout_ms action)) c fin w))
      as [A [B [C D]]].
    rewrite A, B, C, D. simpl. auto.
Qed.

(** A loop that returns has created one process per entry it appended. *)
Lemma run_commands_nspawn todo :
  forall outs w l,
    loop_result (children w) (utf8_ignore w) (timeout_of (timeout_ms action))
      (nspawn w) todo = Return l ->
    nspawn (snd (DevAgent.run_commands self action todo outs w))
    = nspawn w + length l.
Proof.
  induction todo as [|c rest IH]; intros outs w l H; simpl in H.
  - injection H as <-. simpl. lia.
  - rewrite run_commands_cons.
    destruct (children w (nspawn w)) as [|d fin kil]; [discriminate|].
    destruct (hangs _ d); [discriminate|].
    destruct (times_out _ d).
    + injection H as <-. simpl. lia.
    + apply lift_Return in H as [l' [H ->]].
      rewrite (IH _ (exited_world self (timeout_of (timeout_ms action)) c fin w) l').
      * simpl. lia.
      * exact H.
Qed.

End LoopFrame.

(** ** What a call does to the host *)

Section CallFrame.

Lemma gate_stdin a cmds w :
  stdin (snd (require_approval_of a cmds w))
  = if bypass w then stdin w else tl (stdin w).
Proof.
  rewrite gate_unfold.
  destruct (bypass w); [reflexivity|].
  destruct (stdin w) eqn:E; simpl; rewrite ?E; reflexivity.
Qed.

(** The events of a call: the gate's, then the loop's when the gate let the
    batch through. *)
Lemma call_new_events a self request w :
  new_events (call_of a self request) w =
  new_events (require_approval_of a (commands (action (data request)))) w
  ++ match gate_verdict w with
     | Return _ =>
         loop_events self (environ w) (children w)
           (timeout_of (timeout_ms (action (data request)))) (nspawn w)
           (commands (action (data request)))
     | _ => []
     end.
Proof.
  set (cmds := commands (action (data request))).
  apply new_events_app.
  rewrite <- (gate_result a cmds w).
  pose proof (gate_trace a cmds w) as G.
  pose proof (gate_frame a cmds w) as [Fc [_ [Fn Fe]]].
  rewrite gate_events.
  rewrite call_unfold. cbv zeta. fold cmds.
  destruct (require_approval_of a cmds w) as [[u|e|] w1]; simpl in *.
  - pose proof (run_commands_events self (action (data request)) cmds [] w1) as E.
    destruct (DevAgent.run_commands _ _ cmds [] w1) as [r w2]. simpl in *.
    now rewrite E, G, Fc, Fn, Fe, <- app_assoc.
  - now rewrite G, app_nil_r.
  - now rewrite G, app_nil_r.
Qed.

(** A call leaves the environment and the children to come alone, and takes
    from the terminal what the gate took. *)
Lemma call_frame a self request w :
  let w' := snd (call_of a self request w) in
  environ w' = environ w /\ children w' = children w
  /\ utf8_ignore w' = utf8_ignore w
  /\ stdin w' = if bypass w then stdin w else tl (stdin w).
Proof.
  set (cmds := commands (action (data request))). cbv zeta.
  pose proof (gate_frame a cmds w) as [Fc [Fu [_ Fe]]].
  pose proof (gate_stdin a cmds w) as Fs.
  rewrite call_unfold. cbv zeta. fold cmds.
  destruct (require_approval_of a cmds w) as [[u|e|] w1]; simpl in *; auto.
  pose proof (run_commands_frame self (action (data request)) cmds [] w1)
    as [A [B [C D]]].
  destruct (DevAgent.run_commands _ _ cmds [] w1) as [r w2]. simpl in *.
  rewrite A, B, C, D. auto.
Qed.

Lemma call_nspawn a self request w res :
  fst (call_of a self request w) = Return res ->
  nspawn (snd (call_of a self request w)) = nspawn w + length (output res).
Proof.
  set (cmds := commands (action (data request))).
  pose proof (call_of_result a self request w) as R. intros H.
  rewrite H in R. unfold call_result in R. fold cmds in R.
  pose proof (gate_result a cmds w) as V.
  pose proof (gate_frame a cmds w) as [Fc [Fu [Fn _]]].
  rewrite call_unfold. cbv zeta. fold cmds.
  destruct (require_approval_of a cmds w) as [[u|e|] w1]; simpl in *;
    rewrite <- V in R; try discriminate.
  symmetry in R. apply lift_Return in R as [l [L ->]]. simpl.
  rewrite <- Fc, <- Fu, <- Fn in L.
  pose proof (run_commands_nspawn self (action (data request)) cmds [] w1 l L) as N.
  destruct (DevAgent.run_commands _ _ cmds [] w1) as [r w2]. simpl in *.
  now rewrite N, Fn.
Qed.

End CallFrame.

(** ** The events of the loop, read back *)

Section LoopEvents.

Variable self : ShellExecutor.
Variable env : list (string * string).
Variable kids : nat -> Child.
Variable t : option Q.

Lemma loop_events_spawn todo :
  forall k p c d e,
    In (Spawn p c d e) (loop_events self env kids t k todo) ->
    d = cwd self /\ e = env /\ k <= p /\ nth_error todo (p - k) = Some c.
Proof.
  induction todo as [|c0 rest IH]; intros k p c d e H; simpl in H; [destruct H|].
  destruct (kids k) as [|d0 fin kil]; [destruct H|].
  destruct H as [H|[H|H]]; [|discriminate H|].
  - injection H as <- <- <- <-. rewrite Nat.sub_diag. auto.
  - destruct (hangs t d0); [destruct H|].
    destruct (times_out t d0).
    + destruct H as [H|[H|[]]]; discriminate H.
    + destruct (IH _ _ _ _ _ H) as [A [B [C D]]].
      repeat split; auto; [lia|].
      replace (p - k) with (S (p - S k)) by lia. exact D.
Qed.

Lemma loop_events_quiet todo :
  forall k e,
    In e (loop_events self env kids t k todo) ->
    is_input e = false /\ is_print e = false.
Proof.
  induction todo as [|c0 rest IH]; intros k e H; simpl in H; [destruct H|].
  destruct (kids k) as [|d0 fin kil]; [destruct H|].
  destruct H as [<-|[<-|H]]; auto.
  destruct (hangs t d0); [destruct H|].
  destruct (times_out t d0); [|now apply (IH (S k))].
  destruct H as [<-|[<-|[]]]; auto.
Qed.

Lemma loop_events_spawn_count decode todo :
  forall k l,
    loop_result kids decode t k todo = Return l ->
    length (filter is_spawn (loop_events self env kids t k todo)) = length l.
Proof.
  induction todo as [|c0 rest IH]; intros k l H; simpl in *.
  - now injection H as <-.
  - destruct (kids k) as [|d0 fin kil]; [discriminate|].
    destruct (hangs t d0); [discriminate|].
    destruct (times_out t d0).
    + now injection H as <-.
    + apply lift_Return in H as [l' [H ->]]. simpl. f_equal. now apply IH.
Qed.


End LoopEvents.

(** ** More on the gate *)

Lemma filter_none {A} (f : A -> bool) (l : list A) :
  (forall x, In x l -> f x = false) -> filter f l = [].
Proof.
  induction l as [|x r IH]; simpl; intros H; [reflexivity|].
  rewrite (H x (or_introl eq_refl)). apply IH. intros y Hy. apply H. now right.
Qed.

Lemma filter_prints (f : event -> bool) (g : string -> string) (l : list string) :
  (forall s, f (Print s) = false) ->
  filter f (map (fun c => Print (g c)) l) = [].
Proof.
  intros Hf. induction l as [|c r IH]; simpl; [reflexivity|].
  now rewrite Hf.
Qed.

(** X1.  Without the bypass flag the gate writes the header, then one line
    per pending command, in the order of the batch, then asks its question
    and takes exactly one line from the operator, leaving the later lines
    for later. *)
Theorem gate_shows_every_command (a : agent) (cmds : list string) (w : World)
    (line : string) (rest : list string) :
  lookup "SHELL_AUTO_APPROVE" (environ w) <> Some "1" ->
  stdin w = line :: rest ->
  new_events (require_approval_of a cmds) w
  = Print (header a) :: map (fun c => Print (listing a c)) cmds
    ++ [Input "Proceed? [y/N] " (Some line)]
  /\ stdin (snd (require_approval_of a cmds w)) = rest.
Proof.
  intros Hflag Hin. apply bypass_false in Hflag.
  rewrite gate_events, gate_stdin, Hflag, Hin. split; reflexivity.
Qed.

Lemma gate_shows_every_command_witness :
  new_events (require_approval_of Dev ["npm run lint"; "npm run build"])
    (Examples.host [("SHELL_AUTO_APPROVE", "true")] ["y"; "n"] Examples.three_kids)
  = Print (header Dev)
    :: map (fun c => Print (listing Dev c)) ["npm run lint"; "npm run build"]
    ++ [Input "Proceed? [y/N] " (Some "y")]
  /\ stdin (snd (require_approval_of Dev ["npm run lint"; "npm run build"]
                   (Examples.host [("SHELL_AUTO_APPROVE", "true")] ["y"; "n"]
                      Examples.three_kids)))
     = ["n"].
Proof.
  apply (gate_shows_every_command Dev).
  - simpl. discriminate.
  - reflexivity.
Defined.

(** X2.  Without the bypass flag and with no line left to read, the call
    fails with the end-of-file error of [input], not with the rejection
    error, and no process is created. *)
Theorem end_of_input_at_prompt (a : agent) (self : ShellExecutor)
    (request : ShellCommandRequest) (w : World) :
  lookup "SHELL_AUTO_APPROVE" (environ w) <> Some "1" ->
  stdin w = [] ->
  fst (call_of a self request w) = Raise EOFError
  /\ nspawn (snd (call_of a self request w)) = nspawn w
  /\ filter is_spawn (new_events (call_of a self request) w) = [].
Proof.
  intros Hflag Hin. apply bypass_false in Hflag.
  set (cmds := commands (action (data request))).
  assert (G : fst (require_approval_of a cmds w) = Raise EOFError).
  { rewrite gate_result. unfold gate_verdict. now rewrite Hflag, Hin. }
  pose proof (gate_frame a cmds w) as [_ [_ [N _]]].
  rewrite call_new_events, gate_events. fold cmds.
  rewrite (call_when_gate_raises a self request w EOFError G).
  unfold gate_verdict. rewrite Hflag, Hin. simpl.
  repeat split; [exact N|].
  rewrite app_nil_r, filter_app. simpl. rewrite app_nil_r.
  now apply filter_prints.
Qed.

Lemma end_of_input_at_prompt_witness :
  fst (call_of Qa Examples.repo (Examples.request ["npm test"] None)
         (Examples.host [] [] Examples.three_kids)) = Raise EOFError
  /\ nspawn (snd (call_of Qa Examples.repo (Examples.request ["npm test"] None)
                    (Examples.host [] [] Examples.three_kids)))
     = nspawn (Examples.host [] [] Examples.three_kids)
  /\ filter is_spawn
       (new_events (call_of Qa Examples.repo (Examples.request ["npm test"] None))
          (Examples.host [] [] Examples.three_kids)) = [].
Proof.
  apply (end_of_input_at_prompt Qa).
  - simpl. discriminate.
  - reflexivity.
Defined.

(** X3.  The gate is consulted once per call, however many commands the
    batch holds: among the events of a call there is exactly one read of the
    operator's input when the bypass flag is unset, and none when it is
    set. *)
Theorem one_question_per_call (a : agent) (self : ShellExecutor)
    (request : ShellCommandRequest) (w : World) :
  length (filter is_input (new_events (call_of a self request) w))
  = if bypass w then 0 else 1.
Proof.
  rewrite call_new_events, gate_events, filter_app.
  assert (L : filter is_input
                (match gate_verdict w with
                 | Return _ =>
                     loop_events self (environ w) (children w)
                       (timeout_of (timeout_ms (action (data request))))
                       (nspawn w) (commands (action (data request)))
                 | _ => []
                 end) = []).
  { destruct (gate_verdict w); try reflexivity.
    apply filter_none. intros e He.
    now apply loop_events_quiet in He as [-> _]. }
  rewrite L, app_nil_r.
  destruct (bypass w); [reflexivity|].
  rewrite filter_app. simpl. rewrite length_app. simpl.
  now rewrite filter_prints.
Qed.

(** ** More on the executor *)

Lemma gate_events_quiet a cmds w e :
  In e (new_events (require_approval_of a cmds) w) ->
  is_spawn e = false /\ is_kill e = false.
Proof.
  rewrite gate_events. destruct (bypass w); [intros []|].
  intros H. apply in_app_or in H as [H|[<-|[]]]; [|auto].
  destruct H as [<-|H]; [auto|].
  apply in_map_iff in H as [c [<- _]]. auto.
Qed.

(** A returned result names the loop's result. *)
Lemma call_returns_loop a self request w res :
  fst (call_of a self request w) = Return res ->
  gate_verdict w = Return tt
  /\ loop_result (children w) (utf8_ignore w)
       (timeout_of (timeout_ms (action (data request)))) (nspawn w)
       (commands (action (data request))) = Return (output res).
Proof.
  rewrite call_of_result. unfold call_result.
  destruct (gate_verdict w) as [[]| |]; try discriminate.
  intros H. apply lift_Return in H as [l [H ->]]. auto.
Qed.

(** X5.  A call that returns has created exactly one child process per
    entry of its result: nothing is run twice, and nothing is run that does
    not show in the result. *)
Theorem one_process_per_entry (a : agent) (self : ShellExecutor)
    (request : ShellCommandRequest) (w : World) (res : ShellResult) :
  fst (call_of a self request w) = Return res ->
  nspawn (snd (call_of a self request w)) = nspawn w + length (output res)
  /\ length (filter is_spawn (new_events (call_of a self request) w))
     = length (output res).
Proof.
  intros H. split; [now apply call_nspawn|].
  destruct (call_returns_loop _ _ _ _ _ H) as [V L].
  rewrite call_new_events, V, filter_app.
  rewrite (filter_none is_spawn (new_events _ w))
    by (intros e He; now apply gate_events_quiet in He).
  simpl. exact (loop_events_spawn_count _ _ _ _ _ _ _ _ L).
Qed.

Lemma one_process_per_entry_witness :
  nspawn (snd (call_of Dev Examples.repo
                 (Examples.request ["echo one"; "sleep 5"; "echo three"] (Some 100%Z))
                 (Examples.host Examples.auto [] Examples.three_kids)))
  = nspawn (Examples.host Examples.auto [] Examples.three_kids)
    + length (output (Examples.result_of
                        [Examples.echo_entry "echo one"; Examples.sleep_entry]))
  /\ length (filter is_spawn
               (new_events (call_of Dev Examples.repo
                              (Examples.request ["echo one"; "sleep 5"; "echo three"]
                                 (Some 100%Z)))
                  (Examples.host Examples.auto [] Examples.three_kids)))
     = length (output (Examples.result_of
                         [Examples.echo_entry "echo one"; Examples.sleep_entry])).
Proof.
  apply (one_process_per_entry Dev). reflexivity.
Defined.

(** X6.  Every child process of a call is created in the executor's
    working directory, with a copy of the parent's environment, for the
    command at its position in the batch: the [p]-th creation since the
    start of the call runs the [p]-th command. *)
Theorem children_run_in_cwd (a : agent) (self : ShellExecutor)
    (request : ShellCommandRequest) (w : World)
    (p : nat) (c d : string) (e : list (string * string)) :
  In (Spawn p c d e) (new_events (call_of a self request) w) ->
  d = cwd self /\ e = environ w /\ nspawn w <= p
  /\ nth_error (commands (action (data request))) (p - nspawn w) = Some c.
Proof.
  rewrite call_new_events. intros H.
  apply in_app_or in H as [H|H].
  - apply gate_events_quiet in H as [H _]. discriminate H.
  - destruct (gate_verdict w); try destruct H.
    now apply loop_events_spawn in H.
Qed.

Lemma children_run_in_cwd_witness :
  "/repo" = cwd Examples.repo
  /\ Examples.auto = environ (Examples.host Examples.auto [] Examples.three_kids)
  /\ nspawn (Examples.host Examples.auto [] Examples.three_kids) <= 1
  /\ nth_error ["echo one"; "sleep 5"; "echo three"]
       (1 - nspawn (Examples.host Examples.auto [] Examples.three_kids))
     = Some "sleep 5".
Proof.
  apply (children_run_in_cwd Dev Examples.repo
           (Examples.request ["echo one"; "sleep 5"; "echo three"] (Some 100%Z))
           (Examples.host Examples.auto [] Examples.three_kids)).
  simpl. auto.
Defined.



Lemma timeout_of_nonzero ms :
  ms <> 0%Z -> timeout_of (Some ms) = Some (ms # 1000)%Q.
Proof.
  intros H. unfold timeout_of.
  destruct (Z.eqb_spec ms 0); [contradiction|].
  unfold Qeq_bool. simpl.
  destruct (Z.eqb_spec (ms * 1) 0); [lia|reflexivity].
Qed.

Lemma loop_result_hangs kids decode todo :
  forall k i,
    i < length todo ->
    (forall j, j < i -> exists x fin kil, kids (k + j) = Runs (Some x) fin kil) ->
    (exists fin kil, kids (k + i) = Runs None fin kil) ->
    loop_result kids decode None k todo = Hang.
Proof.
  induction todo as [|c rest IH]; intros k i Hi Hbefore Hnever; simpl in *; [lia|].
  destruct i as [|i].
  - destruct Hnever as [fin [kil E]]. rewrite Nat.add_0_r in E.
    now rewrite E.
  - destruct (Hbefore 0 ltac:(lia)) as [x [fin [kil E]]].
    rewrite Nat.add_0_r in E. rewrite E. simpl.
    rewrite (IH (S k) i); [reflexivity|lia| |].
    + intros j Hj. destruct (Hbefore (S j) ltac:(lia)) as [x' [fin' [kil' E']]].
      rewrite Nat.add_succ_r in E'. eauto.
    + destruct Hnever as [fin' [kil' E']].
      rewrite Nat.add_succ_r in E'. eauto.
Qed.

(** X9.  Without a bound ([timeout_ms] absent or zero) an approved call
    waits for ever as soon as one of its commands does not exit: when the
    children before it are created and exit and this one never does, the
    call yields neither a result nor an error. *)
Theorem unbounded_call_hangs (a : agent) (self : ShellExecutor)
    (request : ShellCommandRequest) (w : World) (i : nat) :
  timeout_ms (action (data request)) = None
  \/ timeout_ms (action (data request)) = Some 0%Z ->
  fst (require_approval_of a (commands (action (data request))) w) = Return tt ->
  i < length (commands (action (data request))) ->
  (forall j, j < i ->
             exists x fin kil, children w (nspawn w + j) = Runs (Some x) fin kil) ->
  (exists fin kil, children w (nspawn w + i) = Runs None fin kil) ->
  fst (call_of a self request w) = Hang.
Proof.
  intros Hms Hgate Hi Hbefore Hnever.
  rewrite call_of_result. unfold call_result.
  rewrite gate_result in Hgate. rewrite Hgate.
  assert (T : timeout_of (timeout_ms (action (data request))) = None)
    by (destruct Hms as [-> | ->]; reflexivity).
  rewrite T, (loop_result_hangs _ _ _ _ i Hi Hbefore Hnever). reflexivity.
Qed.

Lemma unbounded_call_hangs_witness :
  fst (call_of Dev Examples.repo (Examples.request ["echo one"; "cat"] None)
         (Examples.host Examples.auto []
            (fun k => match k with
                      | 0 => Examples.quick [] 0
                      | _ => Runs None (Examples.ended [] 0) (Examples.ended [] (-9))
                      end))) = Hang.
Proof.
  apply (unbounded_call_hangs Dev Examples.repo
           (Examples.request ["echo one"; "cat"] None) _ 1).
  - left. reflexivity.
  - reflexivity.
  - simpl. apply le_n.
  - intros j Hj. destruct j as [|j].
    + do 3 eexists. reflexivity.
    + exfalso. inversion Hj as [|m Hm]. inversion Hm.
  - do 2 eexists. reflexivity.
Defined.

(** X11.  The text of an entry is the decoded output of its own child: for
    an entry tagged [exit], what the child had written when it ended; for
    an entry tagged [timeout], what the drain after the kill still
    collected. *)
Theorem entries_carry_decoded_streams (a : agent) (self : ShellExecutor)
    (request : ShellCommandRequest) (w : World) (res : ShellResult)
    (i : nat) (o : ShellCommandOutput) :
  fst (call_of a self request w) = Return res ->
  nth_error (output res) i = Some o ->
  exists d fin kil,
    children w (nspawn w + i) = Runs d fin kil
    /\ (type (outcome o) = exit ->
        stdout o = utf8_ignore w (stdout_bytes fin)
        /\ stderr o = utf8_ignore w (stderr_bytes fin))
    /\ (type (outcome o) = timeout ->
        stdout o = utf8_ignore w (stdout_bytes kil)
        /\ stderr o = utf8_ignore w (stderr_bytes kil)).
Proof.
  intros H Hi. destruct (call_returns_loop _ _ _ _ _ H) as [_ L].
  destruct (loop_result_entries _ _ _ _ _ _ L _ _ Hi)
    as [c [d [fin [kil [_ [K [_ [[_ [-> _]]|[_ ->]]]]]]]]];
    exists d, fin, kil; simpl; repeat split; auto; discriminate.
Qed.

Lemma entries_carry_decoded_streams_witness :
  exists d fin kil,
    children (Examples.host Examples.auto []
                (fun _ => Examples.quick [Byte.x68; Byte.x69; Byte.x0a] 0))
      (0 + 0) = Runs d fin kil
    /\ (exit = exit ->
        String "h" (String "i" PyStr.nl) = string_of_list_byte (stdout_bytes fin)
        /\ "" = string_of_list_byte (stderr_bytes fin))
    /\ (exit = timeout ->
        String "h" (String "i" PyStr.nl) = string_of_list_byte (stdout_bytes kil)
        /\ "" = string_of_list_byte (stderr_bytes kil)).
Proof.
  apply (entries_carry_decoded_streams Dev Examples.repo
           (Examples.request ["echo hi"] None)
           (Examples.host Examples.auto []
              (fun _ => Examples.quick [Byte.x68; Byte.x69; Byte.x0a] 0))
           (Examples.result_of
              [{| command := "echo hi";
                  stdout := String "h" (String "i" PyStr.nl); stderr := "";
                  outcome := {| type := exit; exit_code := Some 0%Z |} |}])
           0
           {| command := "echo hi";
              stdout := String "h" (String "i" PyStr.nl); stderr := "";
              outcome := {| type := exit; exit_code := Some 0%Z |} |}).
  - reflexivity.
  - reflexivity.
Defined.

(** X12.  In a returned result an entry tagged [timeout] is the last one:
    all entries before the last are tagged [exit]. *)
Theorem timeout_entry_is_last (a : agent) (self : ShellExecutor)
    (request : ShellCommandRequest) (w : World) (res : ShellResult)
    (i : nat) (o : ShellCommandOutput) :
  fst (call_of a self request w) = Return res ->
  nth_error (output res) i = Some o ->
  type (outcome o) = timeout ->
  length (output res) = S i.
Proof.
  intros H Hi Ht. destruct (call_returns_loop _ _ _ _ _ H) as [_ L].
  destruct (loop_result_entries _ _ _ _ _ _ L _ _ Hi)
    as [c [d [fin [kil [_ [_ [_ [[_ [_ N]]|[_ ->]]]]]]]]];
    [exact N|discriminate Ht].
Qed.

Lemma timeout_entry_is_last_witness :
  length (output (Examples.result_of
                    [Examples.echo_entry "echo one"; Examples.sleep_entry])) = 2.
Proof.
  apply (timeout_entry_is_last Dev Examples.repo
           (Examples.request ["echo one"; "sleep 5"; "echo three"] (Some 100%Z))
           (Examples.host Examples.auto [] Examples.three_kids)
           (Examples.result_of [Examples.echo_entry "echo one"; Examples.sleep_entry])
           1 Examples.sleep_entry).
  - reflexivity.
  - reflexivity.
  - reflexivity.
Defined.

(** X13.  The two scripts differ in what they print and in nothing else:
    for every executor, request and host, their calls perform the same reads
    of the operator's input and the same process creations, waits, kills and
    drains, in the same order, and leave the same lines on the terminal. *)
Theorem dev_and_qa_differ_in_prints_only (self : ShellExecutor)
    (request : ShellCommandRequest) (w : World) :
  filter (fun e => negb (is_print e))
    (new_events (DevAgent.ShellExecutor_call self request) w)
  = filter (fun e => negb (is_print e))
      (new_events (QaAgent.ShellExecutor_call self request) w)
  /\ stdin (snd (DevAgent.ShellExecutor_call self request w))
     = stdin (snd (QaAgent.ShellExecutor_call self request w)).
Proof.
  change (DevAgent.ShellExecutor_call self request)
    with (call_of Dev self request).
  change (QaAgent.ShellExecutor_call self request)
    with (call_of Qa self request).
  split.
  - rewrite !call_new_events, !filter_app, !gate_events. f_equal.
    destruct (bypass w); [reflexivity|].
    rewrite !filter_app. f_equal.
    unfold prompt_events. simpl.
    now rewrite !filter_prints.
  - destruct (call_frame Dev self request w) as [_ [_ [_ ->]]].
    destruct (call_frame Qa self request w) as [_ [_ [_ ->]]].
    reflexivity.
Qed.

Lemma lstrip_space s : allspace s = true -> PyStr.lstrip s = EmptyString.
Proof.
  unfold allspace. induction s as [|c r IH]; simpl; [reflexivity|].
  intros H. apply andb_true_iff in H as [-> Hr]. auto.
Qed.

(** X14.  The default answer is no: when the bypass flag is unset and the
    operator's line is empty or holds whitespace only, the gate raises the
    rejection error. *)
Theorem blank_answer_rejects (a : agent) (cmds : list string) (w : World)
    (line : string) (rest : list string) :
  lookup "SHELL_AUTO_APPROVE" (environ w) <> Some "1" ->
  stdin w = line :: rest ->
  allspace line = true ->
  fst (require_approval_of a cmds w) = Raise rejected.
Proof.
  intros Hflag Hin Hsp. apply bypass_false in Hflag.
  rewrite gate_result. unfold gate_verdict. rewrite Hflag, Hin.
  unfold approves, PyStr.strip. rewrite (lstrip_space line Hsp). reflexivity.
Qed.

Lemma blank_answer_rejects_witness :
  fst (require_approval_of Dev ["rm -rf build"]
         (Examples.host [] ["  "] Examples.three_kids)) = Raise rejected.
Proof.
  apply (blank_answer_rejects Dev ["rm -rf build"] _ "  " []).
  - simpl. discriminate.
  - reflexivity.
  - reflexivity.
Defined.

Section SpawnFailure.

Variable self : ShellExecutor.
Variable env : list (string * string).
Variable kids : nat -> Child.
Variable decode : list Byte.byte -> string.
Variable t : option Q.


End SpawnFailure.



(** ** The preview of a tool output

    [run_dev_agent] and [run_qa] print the text of a tool output cut to 400
    characters.  The text comes from the agent framework and may hold any
    character, so a [str] is a list over an arbitrary type of characters
    here, and the one-character string "…" is its element [ellipsis]. *)

Section Preview.

Variable char : Type.
Variable ellipsis : char.

(** [if len(out_preview) > 400: out_preview = out_preview[:400] + "…"] *)
Definition out_preview (output : list char) : list char :=
  if 400 <? length output then firstn 400 output ++ [ellipsis] else output.

Lemma firstn_cut (n : nat) (l x : list char) :
  n <= length l -> firstn n (firstn n l ++ x) = firstn n l.
Proof.
  intros H.
  rewrite firstn_app, firstn_firstn, length_firstn, Nat.min_id.
  rewrite (Nat.min_l n (length l) H), Nat.sub_diag.
  simpl. apply app_nil_r.
Qed.

Lemma length_cut (n : nat) (l : list char) (c : char) :
  n <= length l -> length (firstn n l ++ [c]) = S n.
Proof.
  intros H. rewrite length_app, length_firstn, (Nat.min_l n (length l) H).
  simpl. apply Nat.add_1_r.
Qed.

(** X16.  The preview of a tool output has at most 401 characters and
    starts with the first 400 characters of the output. *)
Theorem out_preview_bounded (output : list char) :
  length (out_preview output) <= 401
  /\ firstn 400 (out_preview output) = firstn 400 output.
Proof.
  unfold out_preview. destruct (Nat.ltb_spec 400 (length output)) as [H|H].
  - apply Nat.lt_le_incl in H. split.
    + rewrite (length_cut 400 output ellipsis H). apply le_n.
    + apply (firstn_cut 400 output [ellipsis] H).
  - split; [|reflexivity].
    apply (Nat.le_trans _ 400 _ H). apply Nat.le_succ_diag_r.
Qed.

(** X17.  Cutting twice is cutting once, and an output of at most 400
    characters is printed whole. *)
Theorem out_preview_idempotent (output : list char) :
  out_preview (out_preview output) = out_preview output
  /\ (length output <= 400 -> out_preview output = output).
Proof.
  split.
  - destruct (Nat.lt_ge_cases 400 (length output)) as [H|H].
    + pose proof (Nat.lt_le_incl _ _ H) as H'.
      assert (E : out_preview output = firstn 400 output ++ [ellipsis])
        by (unfold out_preview; now rewrite (proj2 (Nat.ltb_lt _ _) H)).
      rewrite E. unfold out_preview.
      rewrite (length_cut 400 output ellipsis H').
      rewrite (proj2 (Nat.ltb_lt 400 401) (Nat.lt_succ_diag_r 400)).
      now rewrite (firstn_cut 400 output [ellipsis] H').
    + assert (E : out_preview output = output)
        by (unfold out_preview;
            now rewrite (proj2 (Nat.ltb_ge 400 (length output)) H)).
      now rewrite !E.
  - intros H. unfold out_preview.
    now rewrite (proj2 (Nat.ltb_ge 400 (length output)) H).
Qed.

End Preview.

(** ** The command line

    [main] of each script checks the credential and the arguments, then
    hands the task to the agent run.  [sys.exit(1)] ends [main] on the
    spot: [main] yields [Some 1] there, and [None] when it returns after the
    run.  The run itself ([asyncio.run(run_dev_agent(task))], which is the
    agent framework at work) is the parameter [run]. *)

(** The one-character string holding a double quote. *)
Definition dquote : string := String (ascii_of_nat 34) EmptyString.

(** [name in os.environ] *)
Definition os_environ_contains (name : string) : io bool :=
  fun w => (Return (match lookup name (environ w) with
                    | Some _ => true
                    | None => false
                    end), w).

Module DevCli.

Definition main (run_dev_agent : string -> io unit) (argv : list string)
    : io (option Z) :=
  has_key <- os_environ_contains "OPENAI_API_KEY" ;;
  if negb has_key
  then print ["ERROR: OPENAI_API_KEY is not set."] ;;; ret (Some 1%Z)
  else if length argv <? 2
  then print [("Usage: python ai/dev_agent.py " ++ dquote
               ++ "describe the task" ++ dquote)%string] ;;;
       ret (Some 1%Z)
  else
    let task := PyStr.join " " (tl argv) in
    run_dev_agent task ;;; ret None.

End DevCli.

Module QaCli.

Definition main (run_qa : string -> io unit) (argv : list string)
    : io (option Z) :=
  has_key <- os_environ_contains "OPENAI_API_KEY" ;;
  if negb has_key
  then print ["ERROR: OPENAI_API_KEY is not set."] ;;; ret (Some 1%Z)
  else if length argv <? 2
  then print [("Usage: python ai/qa_agent.py " ++ dquote
               ++ "describe what to check" ++ dquote)%string] ;;;
       ret (Some 1%Z)
  else
    let task := PyStr.join " " (tl argv) in
    run_qa task ;;; ret None.

End QaCli.

Definition main_of (a : agent) : (string -> io unit) -> list string -> io (option Z) :=
  match a with
  | Dev => DevCli.main
  | Qa => QaCli.main
  end.

(** The usage line of each script. *)
Definition usage (a : agent) : string :=
  match a with
  | Dev => ("Usage: python ai/dev_agent.py " ++ dquote
            ++ "describe the task" ++ dquote)%string
  | Qa => ("Usage: python ai/qa_agent.py " ++ dquote
           ++ "describe what to check" ++ dquote)%string
  end.

(** X18.  [main] tests the credential first and the arguments second.
    Without the credential variable it prints the credential error and
    nothing else, and exits with status 1, whatever the arguments are (also
    when the task is missing).  With the variable present (an empty value
    counts) and no task argument it prints the usage line and exits with
    status 1.  In both cases the agent run is not started.  Otherwise it
    starts the run on the arguments after the script name joined by single
    spaces, and ends as the run ends. *)
Theorem main_starts_run_only_when_configured (a : agent)
    (run : string -> io unit) (argv : list string) (w : World) :
  (lookup "OPENAI_API_KEY" (environ w) = None ->
   main_of a run argv w
   = (Return (Some 1%Z),
      log (Print ("ERROR: OPENAI_API_KEY is not set." ++ PyStr.nl)%string) w))
  /\ (lookup "OPENAI_API_KEY" (environ w) <> None ->
      length argv < 2 ->
      main_of a run argv w
      = (Return (Some 1%Z), log (Print (usage a ++ PyStr.nl)%string) w))
  /\ (lookup "OPENAI_API_KEY" (environ w) <> None ->
      2 <= length argv ->
      main_of a run argv w
      = (lift (fun _ => None) (fst (run (PyStr.join " " (tl argv)) w)),
         snd (run (PyStr.join " " (tl argv)) w))).
Proof.
  assert (K : forall A (x y : A),
             (if negb (match lookup "OPENAI_API_KEY" (environ w) with
                       | Some _ => true | None => false end)
              then x else y)
             = match lookup "OPENAI_API_KEY" (environ w) with
               | Some _ => y | None => x end)
    by (intros; now destruct (lookup _ _)).
  split; [|split].
  - intros Hkey.
    destruct a; simpl;
      unfold DevCli.main, QaCli.main, bind, os_environ_contains;
      rewrite K, Hkey; reflexivity.
  - intros Hkey Hargs. apply Nat.ltb_lt in Hargs.
    destruct a; simpl;
      unfold DevCli.main, QaCli.main, bind, os_environ_contains;
      rewrite K;
      (destruct (lookup "OPENAI_API_KEY" (environ w)); [|congruence]);
      rewrite Hargs; reflexivity.
  - intros Hkey Hargs. apply Nat.ltb_ge in Hargs.
    destruct a; simpl;
      unfold DevCli.main, QaCli.main, bind, os_environ_contains;
      rewrite K;
      (destruct (lookup "OPENAI_API_KEY" (environ w)); [|congruence]);
      rewrite Hargs;
      destruct (run (PyStr.join " " (tl argv)) w) as [[[]|e|] w']; reflexivity.
Qed.

(** * The executor on a host with faults

    The source calls the host through five unguarded doors that the first
    part took to be safe: [create_subprocess_shell] refuses a command line or
    a directory that holds a NUL character ([ValueError]); the quotient
    [timeout_ms / 1000] must fit a float ([OverflowError]); [proc.kill()]
    fails on a child that is gone already ([ProcessLookupError]); the
    [proc.communicate()] after a kill waits until the pipes of the child are
    closed, which a process started by the command can put off for ever; and
    a child inherits the terminal, so it can read the operator's lines.
    What reaches the call from outside (the cancellation of its task, a
    signal to the interpreter) stays out of the picture, and so does an
    operator who never answers: the terminal either has a line or is at its
    end. *)

(** What the host decides about the child of the [p]-th process creation:
    whether it is gone when the kill comes, whether the drain after its kill
    never ends, and how many of the operator's lines it reads. *)
Record Faults := {
  reaped : nat -> bool;
  lingers : nat -> bool;
  eats : nat -> nat
}.

Definition no_faults : Faults :=
  {| reaped := fun _ => false; lingers := fun _ => false; eats := fun _ => 0 |}.

Module Full.

(** The string holds a NUL character. *)
Definition has_nul (s : string) : bool :=
  existsb (fun c => Ascii.eqb c zero) (list_ascii_of_string s).

(** [n / 1000] on an [int]: the quotient rounded to the nearest float is not
    finite, that is, it reaches [2^1024 - 2^970]. *)
Definition float_overflows (n : Z) : bool :=
  (1000 * (2 ^ 1024 - 2 ^ 970) <=? Z.abs n)%Z.

(** [asyncio.create_subprocess_shell(command, cwd=..., env=..., ...)] *)
Definition create_subprocess_shell (command cwd : string)
    (env : list (string * string)) : io Process :=
  fun w =>
    if has_nul command || has_nul cwd then (Raise ValueError, w)
    else create_subprocess_shell command cwd env w.

(** [(timeout_ms or 0) / 1000 or None] *)
Definition timeout_seconds (timeout_ms : option Z) : io (option Q) :=
  fun w =>
    if float_overflows (match timeout_ms with Some n => n | None => 0%Z end)
    then (Raise OverflowError, w)
    else (Return (timeout_of timeout_ms), w).

(** [asyncio.wait_for(proc.communicate(), timeout=timeout)]: while it runs,
    the child reads what it reads from the terminal. *)
Definition wait_for_communicate (f : Faults) (proc : Process)
    (timeout : option Q) : io (list Byte.byte * list Byte.byte) :=
  fun w =>
    communicate_within proc timeout
      (set_stdin (skipn (eats f (pid proc)) (stdin w))
         (log (Wait (pid proc) timeout) w)).

(** [proc.kill()] *)
Definition kill (f : Faults) (proc : Process) : io unit :=
  fun w =>
    if reaped f (pid proc)
    then (Raise ProcessLookupError, log (Kill (pid proc)) w)
    else kill proc w.

(** [proc.communicate()] *)
Definition communicate (f : Faults) (proc : Process)
    : io (list Byte.byte * list Byte.byte) :=
  fun w =>
    if killed w (pid proc) && lingers f (pid proc)
    then (Hang, log (Communicate (pid proc)) w)
    else communicate proc w.

(** The loop of [__call__], the same text in both scripts. *)
Fixpoint run_commands (f : Faults) (self : ShellExecutor)
    (action : ShellActionRequest) (todo : list string)
    (outputs : list ShellCommandOutput) : io (list ShellCommandOutput) :=
  match todo with
  | [] => ret outputs
  | command :: rest =>
      env <- os_environ_copy ;;
      proc <- create_subprocess_shell command (cwd self) env ;;
      '(stdout_bytes, stderr_bytes, timed_out) <-
        try_except_TimeoutError
          (timeout <- timeout_seconds (timeout_ms action) ;;
           '(o, e) <- wait_for_communicate f proc timeout ;;
           ret (o, e, false))
          (kill f proc ;;;
           '(o, e) <- communicate f proc ;;
           ret (o, e, true)) ;;
      stdout <- decode_utf8_ignore stdout_bytes ;;
      stderr <- decode_utf8_ignore stderr_bytes ;;
      rc <- getattr_returncode proc ;;
      let outcome := {| type := if timed_out : bool then timeout else exit;
                        exit_code := rc |} in
      let outputs := outputs ++ [ {| command := command; stdout := stdout;
                                     stderr := stderr; outcome := outcome |} ] in
      if timed_out : bool then ret outputs
      else run_commands f self action rest outputs
  end.

(** [ShellExecutor.__call__], with the gate of script [a]. *)
Definition ShellExecutor_call (a : agent) (f : Faults) (self : ShellExecutor)
    (request : ShellCommandRequest) : io ShellResult :=
  let action := action (data request) in
  require_approval_of a (commands action) ;;;
  outputs <- run_commands f self action (commands action) [] ;;
  ret {| output := outputs;
         provider_data := [("working_directory", cwd self)] |}.

End Full.

(** The integer that [timeout_ms or 0] is. *)
Definition ms_of (timeout_ms : option Z) : Z :=
  match timeout_ms with Some n => n | None => 0%Z end.

(** The worlds of one turn of the loop on a host with faults. *)
Definition waiting_world' (f : Faults) (self : ShellExecutor) (t : option Q)
    (c : string) (w : World) : World :=
  set_stdin (skipn (eats f (nspawn w)) (stdin w))
    (log (Wait (nspawn w) t) (spawned_world self c w)).

Definition exited_world' (f : Faults) (self : ShellExecutor) (t : option Q)
    (c : string) (fin : Completed) (w : World) : World :=
  set_returncode (nspawn w) (status fin) (waiting_world' f self t c w).

Definition killed_world' (f : Faults) (self : ShellExecutor) (t : option Q)
    (c : string) (kil : Completed) (w : World) : World :=
  set_returncode (nspawn w) (status kil)
    (log (Communicate (nspawn w))
       (log (Kill (nspawn w))
          (set_killed (nspawn w) (waiting_world' f self t c w)))).

Section FullLoop.

Variable f : Faults.
Variable self : ShellExecutor.
Variable action : ShellActionRequest.

Lemma full_run_commands_cons c rest outs w :
  Full.run_commands f self action (c :: rest) outs w =
  if Full.has_nul c || Full.has_nul (cwd self) then (Raise ValueError, w)
  else
    match children w (nspawn w) with
    | SpawnFails => (Raise OSError, set_nspawn (S (nspawn w)) w)
    | Runs d fin kil =>
        if Full.float_overflows (ms_of (timeout_ms action))
        then (Raise OverflowError, spawned_world self c w)
        else
          let t := timeout_of (timeout_ms action) in
          if hangs t d then (Hang, waiting_world' f self t c w)
          else if times_out t d then
            if reaped f (nspawn w)
            then (Raise ProcessLookupError,
                  log (Kill (nspawn w)) (waiting_world' f self t c w))
            else if lingers f (nspawn w)
            then (Hang,
                  log (Communicate (nspawn w))
                    (log (Kill (nspawn w))
                       (set_killed (nspawn w) (waiting_world' f self t c w))))
            else (Return (outs ++ [entry (utf8_ignore w) c kil timeout]),
                  killed_world' f self t c kil w)
          else Full.run_commands f self action rest
                 (outs ++ [entry (utf8_ignore w) c fin exit])
                 (exited_world' f self t c fin w)
    end.
Proof.
  simpl Full.run_commands.
  unfold bind, os_environ_copy, Full.create_subprocess_shell,
    create_subprocess_shell, try_except_TimeoutError, Full.timeout_seconds,
    Full.wait_for_communicate, Full.kill, kill, Full.communicate, communicate,
    communicate_within, collect, decode_utf8_ignore, getattr_returncode, ret.
  destruct (Full.has_nul c || Full.has_nul (cwd self)); [reflexivity|].
  destruct (children w (nspawn w)) as [|d fin kil]; [reflexivity|].
  fold (ms_of (timeout_ms action)).
  destruct (Full.float_overflows (ms_of (timeout_ms action))); [reflexivity|].
  cbv zeta. generalize (timeout_of (timeout_ms action)) as t. intros t.
  cbn [pid p_lifetime p_at_exit p_at_kill killed log fresh set_nspawn
       set_stdin set_killed set_returncode returncode nspawn].
  rewrite !upd_same.
  destruct d as [x|], t as [q|]; simpl hangs; simpl times_out;
    [destruct (Qle_bool x q); simpl negb| | |];
    try (destruct (reaped f (nspawn w)); [reflexivity|]);
    unfold entry, killed_world', exited_world', waiting_world', spawned_world;
    simpl; rewrite ?upd_same; simpl;
    try (destruct (lingers f (nspawn w)); simpl);
    rewrite ?upd_same; reflexivity.
Qed.

End FullLoop.

(** ** The loop on a host with faults, as a function of the host's answers *)

Fixpoint full_result (f : Faults) (kids : nat -> Child)
    (decode : list Byte.byte -> string) (bad_cwd : bool) (tm : option Z)
    (k : nat) (todo : list string) : result (list ShellCommandOutput) :=
  match todo with
  | [] => Return []
  | c :: rest =>
      if Full.has_nul c || bad_cwd then Raise ValueError
      else
        match kids k with
        | SpawnFails => Raise OSError
        | Runs d fin kil =>
            if Full.float_overflows (ms_of tm) then Raise OverflowError
            else if hangs (timeout_of tm) d then Hang
            else if times_out (timeout_of tm) d then
              if reaped f k then Raise ProcessLookupError
              else if lingers f k then Hang
              else Return [entry decode c kil timeout]
            else lift (cons (entry decode c fin exit))
                      (full_result f kids decode bad_cwd tm (S k) rest)
        end
  end.

Fixpoint full_events (f : Faults) (self : ShellExecutor)
    (env : list (string * string)) (kids : nat -> Child) (tm : option Z)
    (k : nat) (todo : list string) : list event :=
  match todo with
  | [] => []
  | c :: rest =>
      if Full.has_nul c || Full.has_nul (cwd self) then []
      else
        match kids k with
        | SpawnFails => []
        | Runs d fin kil =>
            Spawn k c (cwd self) env ::
            (if Full.float_overflows (ms_of tm) then []
             else
               Wait k (timeout_of tm) ::
               (if hangs (timeout_of tm) d then []
                else if times_out (timeout_of tm) d then
                  Kill k :: (if reaped f k then [] else [Communicate k])
                else full_events f self env kids tm (S k) rest))
        end
  end.

Section FullBridge.

Variable f : Faults.
Variable self : ShellExecutor.
Variable action : ShellActionRequest.

Lemma full_run_result todo :
  forall outs w,
    fst (Full.run_commands f self action todo outs w) =
    lift (app outs)
         (full_result f (children w) (utf8_ignore w) (Full.has_nul (cwd self))
            (timeout_ms action) (nspawn w) todo).
Proof.
  induction todo as [|c rest IH]; intros outs w.
  - simpl. now rewrite app_nil_r.
  - rewrite full_run_commands_cons. simpl full_result.
    destruct (Full.has_nul c || Full.has_nul (cwd self)); [reflexivity|].
    destruct (children w (nspawn w)) as [|d fin kil]; [reflexivity|].
    destruct (Full.float_overflows _); [reflexivity|]. cbv zeta.
    destruct (hangs _ d); [reflexivity|].
    destruct (times_out _ d).
    + destruct (reaped f (nspawn w)); [reflexivity|].
      destruct (lingers f (nspawn w)); reflexivity.
    + rewrite IH. simpl.
      destruct (full_result _ _ _ _ _ _ rest); simpl; try reflexivity.
      now rewrite <- app_assoc.
Qed.

Lemma full_run_events todo :
  forall outs w,
    trace (snd (Full.run_commands f self action todo outs w)) =
    trace w ++ full_events f self (environ w) (children w) (timeout_ms action)
                 (nspawn w) todo.
Proof.
  induction todo as [|c rest IH]; intros outs w.
  - simpl. now rewrite app_nil_r.
  - rewrite full_run_commands_cons. simpl full_events.
    destruct (Full.has_nul c || Full.has_nul (cwd self));
      [simpl; now rewrite app_nil_r|].
    destruct (children w (nspawn w)) as [|d fin kil];
      [simpl; now rewrite app_nil_r|].
    destruct (Full.float_overflows _); [reflexivity|]. cbv zeta.
    destruct (hangs _ d); [simpl; now rewrite <- app_assoc|].
    destruct (times_out _ d).
    + destruct (reaped f (nspawn w)); [simpl; now rewrite <- !app_assoc|].
      destruct (lingers f (nspawn w)); simpl; now rewrite <- !app_assoc.
    + rewrite IH. simpl. now rewrite <- !app_assoc.
Qed.

(** The loop leaves the environment, the children to come and the codec
    alone; of the terminal it can only take lines away. *)
Lemma full_run_frame todo :
  forall outs w,
    let w' := snd (Full.run_commands f self action todo outs w) in
    environ w' = environ w /\ children w' = children w
    /\ utf8_ignore w' = utf8_ignore w
    /\ exists n, stdin w' = skipn n (stdin w).
Proof.
  induction todo as [|c rest IH]; intros outs w; cbv zeta.
  - simpl. repeat split. now exists 0.
  - rewrite full_run_commands_cons.
    destruct (Full.has_nul c || Full.has_nul (cwd self));
      [simpl; repeat split; now exists 0|].
    destruct (children w (nspawn w)) as [|d fin kil];
      [simpl; repeat split; now exists 0|].
    destruct (Full.float_overflows _); [simpl; repeat split; now exists 0|].
    cbv zeta.
    destruct (hangs _ d); [simpl; repeat split; eauto|].
    destruct (times_out _ d).
    + destruct (reaped f (nspawn w)); [simpl; repeat split; eauto|].
      destruct (lingers f (nspawn w)); simpl; repeat split; eauto.
    + destruct (IH (outs ++ [entry (utf8_ignore w) c fin exit])
                   (exited_world' f self (timeout_of (timeout_ms action)) c fin w))
        as [A [B [C [n D]]]].
      rewrite A, B, C, D. simpl. repeat split.
      exists (eats f (nspawn w) + n). now rewrite skipn_skipn, Nat.add_comm.
Qed.

End FullBridge.

Section FullCall.

Variable a : agent.
Variable f : Faults.
Variable self : ShellExecutor.
Variable request : ShellCommandRequest.

Lemma full_call_unfold w :
  Full.ShellExecutor_call a f self request w =
  match require_approval_of a (commands (action (data request))) w with
  | (Return _, w1) =>
      match Full.run_commands f self (action (data request))
              (commands (action (data request))) [] w1 with
      | (r, w2) =>
          (lift (fun outs => {| output := outs;
                                provider_data := [("working_directory", cwd self)] |}) r,
           w2)
      end
  | (Raise e, w1) => (Raise e, w1)
  | (Hang, w1) => (Hang, w1)
  end.
Proof.
  unfold Full.ShellExecutor_call. unfold bind at 1.
  destruct (require_approval_of a _ w) as [[u|e|] w1]; try reflexivity.
  unfold bind, ret.
  destruct (Full.run_commands _ _ _ _ _ w1) as [[l|e|] w2]; reflexivity.
Qed.

Lemma full_call_result w :
  fst (Full.ShellExecutor_call a f self request w) =
  match gate_verdict w with
  | Return _ =>
      lift (fun outs => {| output := outs;
                           provider_data := [("working_directory", cwd self)] |})
           (full_result f (children w) (utf8_ignore w) (Full.has_nul (cwd self))
              (timeout_ms (action (data request))) (nspawn w)
              (commands (action (data request))))
  | Raise e => Raise e
  | Hang => Hang
  end.
Proof.
  set (cmds := commands (action (data request))).
  rewrite full_call_unfold. fold cmds.
  rewrite <- (gate_result a cmds w).
  pose proof (gate_frame a cmds w) as F.
  destruct (require_approval_of a cmds w) as [[u|e|] w1]; simpl in *;
    try reflexivity.
  destruct F as [Fc [Fu [Fn _]]].
  pose proof (full_run_result f self (action (data request)) cmds [] w1) as R.
  destruct (Full.run_commands _ _ _ cmds [] w1) as [r w2]. simpl in *.
  rewrite R, Fc, Fu, Fn. clear R.
  destruct (full_result _ _ _ _ _ _ _); reflexivity.
Qed.

Lemma full_call_events w :
  new_events (Full.ShellExecutor_call a f self request) w =
  new_events (require_approval_of a (commands (action (data request)))) w
  ++ match gate_verdict w with
     | Return _ =>
         full_events f self (environ w) (children w)
           (timeout_ms (action (data request))) (nspawn w)
           (commands (action (data request)))
     | _ => []
     end.
Proof.
  set (cmds := commands (action (data request))).
  apply new_events_app.
  rewrite <- (gate_result a cmds w).
  pose proof (gate_trace a cmds w) as G.
  pose proof (gate_frame a cmds w) as [Fc [_ [Fn Fe]]].
  rewrite gate_events.
  rewrite full_call_unfold. fold cmds.
  destruct (require_approval_of a cmds w) as [[u|e|] w1]; simpl in *.
  - pose proof (full_run_events f self (action (data request)) cmds [] w1) as E.
    destruct (Full.run_commands _ _ _ cmds [] w1) as [r w2]. simpl in *.
    now rewrite E, G, Fc, Fn, Fe, <- app_assoc.
  - now rewrite G, app_nil_r.
  - now rewrite G, app_nil_r.
Qed.

(** Of the terminal a call takes the gate's line and what its children
    read; the environment is left alone. *)
Lemma full_call_frame w :
  environ (snd (Full.ShellExecutor_call a f self request w)) = environ w
  /\ exists n,
       stdin (snd (Full.ShellExecutor_call a f self request w))
       = skipn n (if bypass w then stdin w else tl (stdin w)).
Proof.
  set (cmds := commands (action (data request))).
  pose proof (gate_frame a cmds w) as [_ [_ [_ Fe]]].
  pose proof (gate_stdin a cmds w) as Fs.
  rewrite full_call_unfold. fold cmds.
  destruct (require_approval_of a cmds w) as [[u|e|] w1]; simpl in *;
    try (split; [assumption|exists 0; assumption]).
  pose proof (full_run_frame f self (action (data request)) cmds [] w1)
    as [A [_ [_ [n D]]]].
  destruct (Full.run_commands _ _ _ cmds [] w1) as [r w2]. simpl in *.
  split; [congruence|]. exists n. now rewrite D, Fs.
Qed.

End FullCall.

(** ** The obliging host is the host without faults *)

Section Obliging.

Variable f : Faults.
Variable self : ShellExecutor.
Variable action : ShellActionRequest.

Hypothesis never_reaped : forall p, reaped f p = false.
Hypothesis never_lingers : forall p, lingers f p = false.
Hypothesis never_eats : forall p, eats f p = 0.
Hypothesis cwd_clean : Full.has_nul (cwd self) = false.
Hypothesis bound_fits : Full.float_overflows (ms_of (timeout_ms action)) = false.

Lemma full_run_obliging todo :
  (forall c, In c todo -> Full.has_nul c = false) ->
  forall outs w,
    Full.run_commands f self action todo outs w
    = DevAgent.run_commands self action todo outs w.
Proof.
  induction todo as [|c rest IH]; intros Hclean outs w; [reflexivity|].
  rewrite full_run_commands_cons, run_commands_cons.
  rewrite (Hclean c (or_introl eq_refl)), cwd_clean, bound_fits. simpl orb. cbv iota.
  destruct (children w (nspawn w)) as [|d fin kil]; [reflexivity|]. cbv zeta.
  assert (W : waiting_world' f self (timeout_of (timeout_ms action)) c w
              = waiting_world self (timeout_of (timeout_ms action)) c w)
    by (unfold waiting_world'; now rewrite never_eats).
  destruct (hangs _ d); [now rewrite W|].
  destruct (times_out _ d).
  - rewrite never_reaped, never_lingers.
    unfold killed_world', killed_world. now rewrite W.
  - unfold exited_world'. rewrite W. apply IH.
    intros c' Hc'. apply Hclean. now right.
Qed.

End Obliging.

(** On a host without faults, for a request whose command lines and
    directory hold no NUL and whose bound fits a float, the call of the
    first part is the call in full. *)
Lemma full_call_obliging (a : agent) (self : ShellExecutor)
    (request : ShellCommandRequest) (w : World) :
  Full.has_nul (cwd self) = false ->
  Full.float_overflows (ms_of (timeout_ms (action (data request)))) = false ->
  (forall c, In c (commands (action (data request))) -> Full.has_nul c = false) ->
  Full.ShellExecutor_call a no_faults self request w = call_of a self request w.
Proof.
  intros Hcwd Hfit Hclean.
  rewrite full_call_unfold, call_unfold. cbv zeta.
  destruct (require_approval_of a _ w) as [[u|e|] w1]; try reflexivity.
  rewrite (full_run_obliging no_faults self (action (data request)));
    auto.
Qed.

(** ** The events and the result on a host with faults, read back *)

Section FullFacts.

Variable f : Faults.
Variable self : ShellExecutor.
Variable env : list (string * string).
Variable kids : nat -> Child.
Variable decode : list Byte.byte -> string.
Variable tm : option Z.

Lemma full_events_wait todo :
  forall k p b,
    In (Wait p b) (full_events f self env kids tm k todo) -> b = timeout_of tm.
Proof.
  induction todo as [|c rest IH]; intros k p b H; simpl in H; [destruct H|].
  destruct (Full.has_nul c || Full.has_nul (cwd self)); [destruct H|].
  destruct (kids k) as [|d fin kil]; [destruct H|].
  destruct H as [H|H]; [discriminate H|].
  destruct (Full.float_overflows (ms_of tm)); [destruct H|].
  destruct H as [H|H]; [now injection H as _ <-|].
  destruct (hangs _ d); [destruct H|].
  destruct (times_out _ d); [|now apply (IH (S k) p)].
  destruct H as [H|H]; [discriminate H|].
  destruct (reaped f k); [destruct H|].
  destruct H as [H|[]]; discriminate H.
Qed.

Lemma full_events_kill todo :
  forall k p,
    In (Kill p) (full_events f self env kids tm k todo) ->
    exists d fin kil,
      kids p = Runs d fin kil /\ times_out (timeout_of tm) d = true.
Proof.
  induction todo as [|c rest IH]; intros k p H; simpl in H; [destruct H|].
  destruct (Full.has_nul c || Full.has_nul (cwd self)); [destruct H|].
  destruct (kids k) as [|d fin kil] eqn:Ek; [destruct H|].
  destruct H as [H|H]; [discriminate H|].
  destruct (Full.float_overflows (ms_of tm)); [destruct H|].
  destruct H as [H|H]; [discriminate H|].
  destruct (hangs _ d); [destruct H|].
  destruct (times_out _ d) eqn:Et; [|now apply (IH (S k) p)].
  destruct H as [H|H].
  - injection H as <-. eauto.
  - destruct (reaped f k); [destruct H|].
    destruct H as [H|[]]; discriminate H.
Qed.

(** A command that the loop gets to is started and waited on, and killed
    when its wait runs out. *)
Lemma full_events_reach todo :
  forall k i c d fin kil,
    Full.has_nul (cwd self) = false ->
    Full.float_overflows (ms_of tm) = false ->
    nth_error todo i = Some c ->
    (forall j cj, j <= i -> nth_error todo j = Some cj -> Full.has_nul cj = false) ->
    (forall j, j < i ->
               exists dj finj kilj,
                 kids (k + j) = Runs dj finj kilj
                 /\ hangs (timeout_of tm) dj = false
                 /\ times_out (timeout_of tm) dj = false) ->
    kids (k + i) = Runs d fin kil ->
    In (Spawn (k + i) c (cwd self) env) (full_events f self env kids tm k todo)
    /\ In (Wait (k + i) (timeout_of tm)) (full_events f self env kids tm k todo)
    /\ (times_out (timeout_of tm) d = true ->
        In (Kill (k + i)) (full_events f self env kids tm k todo)).
Proof.
  induction todo as [|c0 rest IH]; intros k i c d fin kil Hcwd Hfit Hc Hclean Hbefore Hkid;
    [destruct i; discriminate Hc|].
  simpl full_events.
  rewrite (Hclean 0 c0 (Nat.le_0_l i) eq_refl), Hcwd, Hfit. simpl orb. cbv iota.
  destruct i as [|i].
  - simpl in Hc. injection Hc as <-. rewrite Nat.add_0_r in *. rewrite Hkid.
    split; [now left|]. split; [right; now left|].
    intros Ht. rewrite Ht.
    assert (Hh : hangs (timeout_of tm) d = false)
      by (destruct d, (timeout_of tm); simpl in *; congruence).
    rewrite Hh. right; right; now left.
  - destruct (Hbefore 0 (Nat.lt_0_succ i)) as [d0 [fin0 [kil0 [E0 [Eh Et]]]]].
    rewrite Nat.add_0_r in E0. rewrite E0, Eh, Et.
    destruct (IH (S k) i c d fin kil Hcwd Hfit Hc) as [A [B C]].
    + intros j cj Hj Hn. apply (Hclean (S j) cj); [lia|exact Hn].
    + intros j Hj. specialize (Hbefore (S j) ltac:(lia)).
      now rewrite Nat.add_succ_r in Hbefore.
    + now rewrite Nat.add_succ_r in Hkid.
    + rewrite Nat.add_succ_r. repeat split.
      * right; right; exact A.
      * right; right; exact B.
      * intros Ht. right; right; exact (C Ht).
Qed.


End FullFacts.

Lemma gate_events_shape a cmds w e :
  In e (new_events (require_approval_of a cmds) w) ->
  is_print e = true \/ is_input e = true.
Proof.
  rewrite gate_events. destruct (bypass w); [intros []|].
  intros H. apply in_app_or in H as [H|[<-|[]]]; [|now right].
  destruct H as [<-|H]; [now left|].
  apply in_map_iff in H as [c [<- _]]. now left.
Qed.

Lemma times_out_bounded q d :
  times_out (Some q) d = true
  <-> match d with Some x => (q < x)%Q | None => True end.
Proof.
  destruct d as [x|]; simpl; [|tauto].
  destruct (Qle_bool x q) eqn:E; simpl.
  - apply Qle_bool_iff in E. split; [discriminate|].
    intros H. exfalso. exact (Qlt_not_le _ _ H E).
  - split; [|reflexivity]. intros _. apply Qnot_le_lt.
    intros H. apply Qle_bool_iff in H. congruence.
Qed.

(** ** The claims that turn on the faults *)

(** C5, as stated, fails: a request whose [timeout_ms] is [10^400] has a
    timeout greater than zero, yet [timeout_ms / 1000] is no float, so the
    call raises [OverflowError] right after it has started the first
    command, and waits on nothing, with or without a bound. *)
Lemma huge_timeout_is_no_bound :
  (0 < 10 ^ 400)%Z
  /\ fst (Full.ShellExecutor_call Dev no_faults Examples.repo
            (Examples.request ["sleep 1"] (Some (10 ^ 400)%Z))
            (Examples.host Examples.auto [] Examples.three_kids))
     = Raise OverflowError
  /\ new_events (Full.ShellExecutor_call Dev no_faults Examples.repo
                   (Examples.request ["sleep 1"] (Some (10 ^ 400)%Z)))
       (Examples.host Examples.auto [] Examples.three_kids)
     = [Spawn 0 "sleep 1" "/repo" Examples.auto].
Proof.
  split; [reflexivity|]. split; vm_compute; reflexivity.
Qed.

(** C5, amended.  For every request whose [timeout_ms / 1000] fits a float,
    [ShellExecutor.__call__] bounds the wait on each command it runs by
    [timeout_ms / 1000] seconds when the timeout in milliseconds is greater
    than zero, and waits without a bound when it is zero or absent.  Here
    command [i] is one the loop gets to: the gate approved, no command line
    up to it is refused, and the children before it were created and ended
    in time.  The call then starts command [i] and waits on it; with a
    timeout above zero every wait of the call carries [timeout_ms / 1000],
    and the child is killed exactly when it is still running at that bound;
    with a timeout of zero or none every wait is unbounded and nothing is
    killed. *)
Theorem wait_is_bounded_by_request (a : agent) (f : Faults)
    (self : ShellExecutor) (request : ShellCommandRequest) (w : World)
    (i : nat) (c : string) (d : option Q) (fin kil : Completed) :
  fst (require_approval_of a (commands (action (data request))) w) = Return tt ->
  Full.has_nul (cwd self) = false ->
  Full.float_overflows (ms_of (timeout_ms (action (data request)))) = false ->
  nth_error (commands (action (data request))) i = Some c ->
  (forall j cj, j <= i ->
                nth_error (commands (action (data request))) j = Some cj ->
                Full.has_nul cj = false) ->
  (forall j, j < i ->
             exists dj finj kilj,
               children w (nspawn w + j) = Runs dj finj kilj
               /\ hangs (timeout_of (timeout_ms (action (data request)))) dj = false
               /\ times_out (timeout_of (timeout_ms (action (data request)))) dj
                  = false) ->
  children w (nspawn w + i) = Runs d fin kil ->
  In (Spawn (nspawn w + i) c (cwd self) (environ w))
    (new_events (Full.ShellExecutor_call a f self request) w)
  /\ (forall ms,
        timeout_ms (action (data request)) = Some ms -> (0 < ms)%Z ->
        In (Wait (nspawn w + i) (Some (ms # 1000)%Q))
          (new_events (Full.ShellExecutor_call a f self request) w)
        /\ (forall p b,
              In (Wait p b) (new_events (Full.ShellExecutor_call a f self request) w) ->
              b = Some (ms # 1000)%Q)
        /\ (In (Kill (nspawn w + i))
              (new_events (Full.ShellExecutor_call a f self request) w)
            <-> match d with
                | Some x => (ms # 1000 < x)%Q
                | None => True
                end))
  /\ (timeout_ms (action (data request)) = None
      \/ timeout_ms (action (data request)) = Some 0%Z ->
      In (Wait (nspawn w + i) None)
        (new_events (Full.ShellExecutor_call a f self request) w)
      /\ (forall p b,
            In (Wait p b) (new_events (Full.ShellExecutor_call a f self request) w) ->
            b = None)
      /\ forall p,
           ~ In (Kill p) (new_events (Full.ShellExecutor_call a f self request) w)).
Proof.
  intros Hgate Hcwd Hfit Hc Hclean Hbefore Hkid.
  rewrite gate_result in Hgate.
  rewrite full_call_events, Hgate.
  set (tm := timeout_ms (action (data request))) in *.
  set (gev := new_events (require_approval_of a (commands (action (data request)))) w).
  set (lev := full_events f self (environ w) (children w) tm (nspawn w)
                (commands (action (data request)))).
  destruct (full_events_reach f self (environ w) (children w) tm _ _ _ _ _ _ _
              Hcwd Hfit Hc Hclean Hbefore Hkid) as [S [W K]].
  fold lev in S, W, K.
  assert (Wb : forall p b, In (Wait p b) (gev ++ lev) -> b = timeout_of tm).
  { intros p b H. apply in_app_or in H as [H|H].
    - apply gate_events_shape in H as [H|H]; discriminate H.
    - exact (full_events_wait _ _ _ _ _ _ _ _ _ H). }
  assert (Kb : forall p, In (Kill p) (gev ++ lev) ->
               exists d' fin' kil',
                 children w p = Runs d' fin' kil'
                 /\ times_out (timeout_of tm) d' = true).
  { intros p H. apply in_app_or in H as [H|H].
    - apply gate_events_shape in H as [H|H]; discriminate H.
    - exact (full_events_kill _ _ _ _ _ _ _ _ H). }
  split; [apply in_or_app; now right|]. split.
  - intros ms Hms Hpos.
    assert (T : timeout_of tm = Some (ms # 1000)%Q)
      by (rewrite Hms; apply timeout_of_nonzero; lia).
    rewrite T in *. split; [apply in_or_app; now right|].
    split; [exact Wb|].
    rewrite <- times_out_bounded. split.
    + intros H. destruct (Kb _ H) as [d' [fin' [kil' [E Ht]]]]. congruence.
    + intros H. apply in_or_app. right. exact (K H).
  - intros Hms.
    assert (T : timeout_of tm = None) by (destruct Hms as [-> | ->]; reflexivity).
    rewrite T in *. split; [apply in_or_app; now right|].
    split; [exact Wb|].
    intros p H. destruct (Kb _ H) as [d' [fin' [kil' [_ Ht]]]].
    destruct d'; discriminate Ht.
Qed.

Lemma wait_is_bounded_by_request_witness :
  In (Spawn (0 + 1) "sleep 5" "/repo" Examples.auto)
    (new_events (Full.ShellExecutor_call Dev no_faults Examples.repo
                   (Examples.request ["echo one"; "sleep 5"; "echo three"]
                      (Some 100%Z)))
       (Examples.host Examples.auto [] Examples.three_kids))
  /\ (forall ms,
        Some 100%Z = Some ms -> (0 < ms)%Z ->
        In (Wait (0 + 1) (Some (ms # 1000)%Q))
          (new_events (Full.ShellExecutor_call Dev no_faults Examples.repo
                         (Examples.request ["echo one"; "sleep 5"; "echo three"]
                            (Some 100%Z)))
             (Examples.host Examples.auto [] Examples.three_kids))
        /\ (forall p b,
              In (Wait p b)
                (new_events (Full.ShellExecutor_call Dev no_faults Examples.repo
                               (Examples.request
                                  ["echo one"; "sleep 5"; "echo three"]
                                  (Some 100%Z)))
                   (Examples.host Examples.auto [] Examples.three_kids)) ->
              b = Some (ms # 1000)%Q)
        /\ (In (Kill (0 + 1))
              (new_events (Full.ShellExecutor_call Dev no_faults Examples.repo
                             (Examples.request
                                ["echo one"; "sleep 5"; "echo three"]
                                (Some 100%Z)))
                 (Examples.host Examples.auto [] Examples.three_kids))
            <-> (ms # 1000 < 5 # 1)%Q))
  /\ (Some 100%Z = None \/ Some 100%Z = Some 0%Z ->
      In (Wait (0 + 1) None)
        (new_events (Full.ShellExecutor_call Dev no_faults Examples.repo
                       (Examples.request ["echo one"; "sleep 5"; "echo three"]
                          (Some 100%Z)))
           (Examples.host Examples.auto [] Examples.three_kids))
      /\ (forall p b,
            In (Wait p b)
              (new_events (Full.ShellExecutor_call Dev no_faults Examples.repo
                             (Examples.request
                                ["echo one"; "sleep 5"; "echo three"]
                                (Some 100%Z)))
                 (Examples.host Examples.auto [] Examples.three_kids)) ->
            b = None)
      /\ forall p,
           ~ In (Kill p)
               (new_events (Full.ShellExecutor_call Dev no_faults Examples.repo
                              (Examples.request
                                 ["echo one"; "sleep 5"; "echo three"]
                                 (Some 100%Z)))
                  (Examples.host Examples.auto [] Examples.three_kids))).
Proof.
  apply (wait_is_bounded_by_request Dev no_faults Examples.repo
           (Examples.request ["echo one"; "sleep 5"; "echo three"] (Some 100%Z))
           (Examples.host Examples.auto [] Examples.three_kids)
           1 "sleep 5" (Some (5 # 1)%Q) (Examples.ended [] 0)
           (Examples.ended [] (-9))).
  - reflexivity.
  - reflexivity.
  - reflexivity.
  - reflexivity.
  - intros j cj Hle Hj. destruct j as [|[|j]].
    + injection Hj as <-. reflexivity.
    + injection Hj as <-. reflexivity.
    + exfalso. inversion Hle as [|m Hm]. inversion Hm.
  - intros j Hj. destruct j as [|j].
    + do 3 eexists. repeat split.
    + exfalso. inversion Hj as [|m Hm]. inversion Hm.
  - reflexivity.
Defined.






(** ** More on the executor, on a host with faults *)

(** X4.  An answer approves one call only.  A first call without the bypass
    flag reads the operator's first line, and its commands may read further
    lines; what it leaves on the terminal are lines that came after the
    first answer.  A second call (of either script, for any request, on any
    host) is decided by the first of the lines left: it passes the gate when
    that line is a padded "y" or "yes", fails with the rejection error when
    it is not, and fails with the end-of-file error when no line is left. *)
Theorem approval_is_not_remembered (a b : agent) (f1 f2 : Faults)
    (self1 self2 : ShellExecutor) (r1 r2 : ShellCommandRequest) (w : World)
    (l1 : string) (rest : list string) :
  lookup "SHELL_AUTO_APPROVE" (environ w) <> Some "1" ->
  stdin w = l1 :: rest ->
  exists n,
    stdin (snd (Full.ShellExecutor_call a f1 self1 r1 w)) = skipn n rest
    /\ (skipn n rest = [] ->
        fst (Full.ShellExecutor_call b f2 self2 r2
               (snd (Full.ShellExecutor_call a f1 self1 r1 w))) = Raise EOFError)
    /\ (forall l more,
          skipn n rest = l :: more ->
          (padded_yes l ->
           fst (require_approval_of b (commands (action (data r2)))
                  (snd (Full.ShellExecutor_call a f1 self1 r1 w))) = Return tt)
          /\ (~ padded_yes l ->
              fst (Full.ShellExecutor_call b f2 self2 r2
                     (snd (Full.ShellExecutor_call a f1 self1 r1 w)))
              = Raise rejected)).
Proof.
  intros Hflag Hin. apply bypass_false in Hflag.
  destruct (full_call_frame a f1 self1 r1 w) as [Fe [n Fs]].
  rewrite Hflag, Hin in Fs. simpl in Fs.
  set (w1 := snd (Full.ShellExecutor_call a f1 self1 r1 w)) in *.
  assert (B : bypass w1 = false) by (unfold bypass; now rewrite Fe).
  exists n. split; [exact Fs|]. split.
  - intros E. rewrite full_call_result. unfold gate_verdict.
    now rewrite B, Fs, E.
  - intros l more E.
    assert (V : gate_verdict w1 = if approves l then Return tt else Raise rejected)
      by (unfold gate_verdict; now rewrite B, Fs, E).
    rewrite <- approves_iff. split; intros H.
    + rewrite gate_result, V. now rewrite H.
    + rewrite full_call_result, V. now destruct (approves l).
Qed.

(** A host whose children each read one line of the terminal. *)
Definition greedy : Faults :=
  {| reaped := fun _ => false; lingers := fun _ => false; eats := fun _ => 1 |}.

Lemma approval_is_not_remembered_witness :
  exists n,
    stdin (snd (Full.ShellExecutor_call Dev greedy Examples.repo
                  (Examples.request ["cat"] None)
                  (Examples.host [] ["y"; "yes"; "n"] Examples.three_kids)))
    = skipn n ["yes"; "n"]
    /\ (skipn n ["yes"; "n"] = [] ->
        fst (Full.ShellExecutor_call Qa greedy Examples.repo
               (Examples.request ["npm test"] None)
               (snd (Full.ShellExecutor_call Dev greedy Examples.repo
                       (Examples.request ["cat"] None)
                       (Examples.host [] ["y"; "yes"; "n"] Examples.three_kids))))
        = Raise EOFError)
    /\ (forall l more,
          skipn n ["yes"; "n"] = l :: more ->
          (padded_yes l ->
           fst (require_approval_of Qa
                  (commands (action (data (Examples.request ["npm test"] None))))
                  (snd (Full.ShellExecutor_call Dev greedy Examples.repo
                          (Examples.request ["cat"] None)
                          (Examples.host [] ["y"; "yes"; "n"] Examples.three_kids))))
           = Return tt)
          /\ (~ padded_yes l ->
              fst (Full.ShellExecutor_call Qa greedy Examples.repo
                     (Examples.request ["npm test"] None)
                     (snd (Full.ShellExecutor_call Dev greedy Examples.repo
                             (Examples.request ["cat"] None)
                             (Examples.host [] ["y"; "yes"; "n"]
                                Examples.three_kids))))
              = Raise rejected)).
Proof.
  apply (approval_is_not_remembered Dev Qa greedy greedy Examples.repo
           Examples.repo (Examples.request ["cat"] None)
           (Examples.request ["npm test"] None)
           (Examples.host [] ["y"; "yes"; "n"] Examples.three_kids) "y"
           ["yes"; "n"]).
  - simpl. discriminate.
  - reflexivity.
Defined.

(** X10.  A negative [timeout_ms] is a bound that no child meets.  The first
    command of an approved batch is started, its wait runs out and it is
    killed, and no other command is started.  The call then raises
    [ProcessLookupError] when the child was gone before the kill, waits for
    ever when the drain does not end, and otherwise returns a result whose
    only entry is that command's, tagged [timeout]. *)
Theorem negative_timeout_stops_at_first (a : agent) (f : Faults)
    (self : ShellExecutor) (request : ShellCommandRequest) (w : World) (ms : Z)
    (c : string) (rest : list string) (d : option Q) (fin kil : Completed) :
  timeout_ms (action (data request)) = Some ms ->
  (ms < 0)%Z ->
  Full.float_overflows ms = false ->
  fst (require_approval_of a (commands (action (data request))) w) = Return tt ->
  commands (action (data request)) = c :: rest ->
  Full.has_nul c = false ->
  Full.has_nul (cwd self) = false ->
  children w (nspawn w) = Runs d fin kil ->
  (forall x, d = Some x -> (0 <= x)%Q) ->
  filter is_spawn (new_events (Full.ShellExecutor_call a f self request) w)
  = [Spawn (nspawn w) c (cwd self) (environ w)]
  /\ In (Kill (nspawn w)) (new_events (Full.ShellExecutor_call a f self request) w)
  /\ fst (Full.ShellExecutor_call a f self request w)
     = if reaped f (nspawn w) then Raise ProcessLookupError
       else if lingers f (nspawn w) then Hang
       else Return {| output := [entry (utf8_ignore w) c kil timeout];
                      provider_data := [("working_directory", cwd self)] |}.
Proof.
  intros Hms Hneg Hfit Hgate Hcmds Hc Hcwd Hkid Hd.
  rewrite gate_result in Hgate.
  assert (T : times_out (Some (ms # 1000)%Q) d = true).
  { destruct d as [x|]; [|reflexivity]. simpl.
    destruct (Qle_bool x (ms # 1000)) eqn:E; [|reflexivity].
    apply Qle_bool_iff in E. specialize (Hd x eq_refl).
    unfold Qle in *. simpl in *. nia. }
  assert (H : hangs (Some (ms # 1000)%Q) d = false) by (destruct d; reflexivity).
  rewrite full_call_events, full_call_result, Hgate, Hcmds, Hms, Hcwd.
  simpl full_events. simpl full_result.
  rewrite Hc, Hcwd, Hkid. simpl orb. cbv iota. simpl ms_of.
  rewrite Hfit, (timeout_of_nonzero ms) by lia. rewrite H, T.
  rewrite filter_app.
  rewrite (filter_none is_spawn (new_events _ w))
    by (intros e He; now apply gate_events_quiet in He).
  split; [|split].
  - simpl. now destruct (reaped f (nspawn w)).
  - apply in_or_app. right. right; right; now left.
  - destruct (reaped f (nspawn w)); [reflexivity|].
    destruct (lingers f (nspawn w)); reflexivity.
Qed.

(** A host on which the first child is gone when the kill comes. *)
Definition hasty : Faults :=
  {| reaped := fun p => Nat.eqb p 0; lingers := fun _ => false;
     eats := fun _ => 0 |}.

Lemma negative_timeout_stops_at_first_witness :
  filter is_spawn
    (new_events (Full.ShellExecutor_call Dev hasty Examples.repo
                   (Examples.request ["echo one"; "echo two"] (Some (-5)%Z)))
       (Examples.host Examples.auto [] Examples.three_kids))
  = [Spawn 0 "echo one" "/repo" Examples.auto]
  /\ In (Kill 0)
       (new_events (Full.ShellExecutor_call Dev hasty Examples.repo
                      (Examples.request ["echo one"; "echo two"] (Some (-5)%Z)))
          (Examples.host Examples.auto [] Examples.three_kids))
  /\ fst (Full.ShellExecutor_call Dev hasty Examples.repo
            (Examples.request ["echo one"; "echo two"] (Some (-5)%Z))
            (Examples.host Examples.auto [] Examples.three_kids))
     = Raise ProcessLookupError.
Proof.
  apply (negative_timeout_stops_at_first Dev hasty Examples.repo
           (Examples.request ["echo one"; "echo two"] (Some (-5)%Z))
           (Examples.host Examples.auto [] Examples.three_kids) (-5)%Z
           "echo one" ["echo two"] (Some (1 # 100)%Q) (Examples.ended [] 0)
           (Examples.ended [] (-9))).
  - reflexivity.
  - reflexivity.
  - reflexivity.
  - reflexivity.
  - reflexivity.
  - reflexivity.
  - reflexivity.
  - reflexivity.
  - intros x Hx. injection Hx as <-. discriminate.
Defined.
